(** * Hours tracker: derived values, form handlers and CSV export

    A shallow embedding of the two React components of the repository
    ([src/unnamed/part_000], the tracker with the editable data table, and
    [src/unnamed/part_001], the "UK version") and the properties their
    specification states about them.

    JavaScript numbers are read as exact rationals extended with [NaN]:
    rounding of IEEE doubles is left aside, as the specification does
    ("floating-point tolerance aside"), and there are no infinities. The
    numbered theorems are therefore stated on the operations the code
    performs, in the order in which it performs them ([Math.round] and
    [Math.ceil] are applied to the product and the quotient that the code
    computes), and they state no identity that exact arithmetic has and
    doubles lack (sums taken in another order, distributivity, a
    difference added back).

    Strings are Rocq strings, each character a code unit below 256 (the
    characters of ISO 8859-1); text with other characters is outside the
    embedding. *)

From Stdlib Require Import ZArith QArith Qcanon Qround Qpower Lqa.
From Stdlib Require Import String Ascii List Bool Lia Permutation Sorted.
From stdpp Require Import gmap strings sorting.

Import ListNotations.
Local Open Scope Z_scope.
Local Open Scope string_scope.

(* ===================================================================== *)
(** * JavaScript numbers *)
(* ===================================================================== *)

Inductive number : Type :=
| NaN
| Fin (q : Qc).

Definition ofZ (z : Z) : number := Fin (Q2Qc (inject_Z z)).

Module JS.

Definition add (a b : number) : number :=
  match a, b with
  | Fin x, Fin y => Fin (x + y)%Qc
  | _, _ => NaN
  end.

Definition sub (a b : number) : number :=
  match a, b with
  | Fin x, Fin y => Fin (x - y)%Qc
  | _, _ => NaN
  end.

Definition mul (a b : number) : number :=
  match a, b with
  | Fin x, Fin y => Fin (x * y)%Qc
  | _, _ => NaN
  end.

(** [a / b]. JavaScript answers an infinity (or [NaN]) for a zero
    divisor; the embedding has no infinities and answers [NaN]. Every
    division of the modelled code has a divisor that is not zero: the
    literal [100], [weeks] (at least 1) and [weeklyAverage] under its
    [> 0] guard. *)
Definition div (a b : number) : number :=
  match a, b with
  | Fin x, Fin y => if Qc_eq_dec y (Q2Qc 0) then NaN else Fin (x / y)%Qc
  | _, _ => NaN
  end.

(** [a < b], [a > b], [a <= b] on numbers: false as soon as one side is
    [NaN]. *)
Definition lt (a b : number) : bool :=
  match a, b with
  | Fin x, Fin y => if Qclt_le_dec x y then true else false
  | _, _ => false
  end.

Definition gt (a b : number) : bool := lt b a.

Definition le (a b : number) : bool :=
  match a, b with
  | Fin x, Fin y => if Qclt_le_dec y x then false else true
  | _, _ => false
  end.

(** [Math.ceil], [Math.round] (halves go towards plus infinity) and
    [Math.max] of two arguments. *)
Definition ceil (a : number) : number :=
  match a with
  | NaN => NaN
  | Fin x => ofZ (Qceiling x)
  end.

Definition round (a : number) : number :=
  match a with
  | NaN => NaN
  | Fin x => ofZ (Qfloor (x + Q2Qc (1 # 2))%Qc)
  end.

Definition max (a b : number) : number :=
  match a, b with
  | Fin x, Fin y => if Qclt_le_dec x y then Fin y else Fin x
  | _, _ => NaN
  end.

End JS.

(* ===================================================================== *)
(** * Reading and printing numbers *)
(* ===================================================================== *)

Definition isDigit (c : ascii) : bool :=
  ((48 <=? Z.of_nat (nat_of_ascii c)) && (Z.of_nat (nat_of_ascii c) <=? 57))%Z.

Definition digitValue (c : ascii) : Z := Z.of_nat (nat_of_ascii c) - 48.

(** White space and line terminators, as [String.prototype.trim] and
    [StringToNumber] strip them, among the code units below 256: TAB, LF,
    VT, FF, CR, SP and the no-break space (code 160). *)
Definition isWhite (c : ascii) : bool :=
  let n := Z.of_nat (nat_of_ascii c) in
  ((9 <=? n) && (n <=? 13) || (n =? 32) || (n =? 160))%Z.

Fixpoint trimStart (s : string) : string :=
  match s with
  | String c r => if isWhite c then trimStart r else s
  | EmptyString => EmptyString
  end.

Fixpoint trimEnd (s : string) : string :=
  match s with
  | String c r =>
      match trimEnd r with
      | EmptyString => if isWhite c then EmptyString else String c EmptyString
      | r' => String c r'
      end
  | EmptyString => EmptyString
  end.

Definition trim (s : string) : string := trimEnd (trimStart s).

(** The longest prefix of decimal digits: its value on top of [acc], how
    many digits were read on top of [n], and the rest of the text. *)
Fixpoint readDigits (s : string) (acc : Z) (n : Z) : Z * Z * string :=
  match s with
  | String c r =>
      if isDigit c then readDigits r (10 * acc + digitValue c) (n + 1)
      else (acc, n, s)
  | EmptyString => (acc, n, s)
  end.

Definition readSign (s : string) : Z * string :=
  match s with
  | String "+"%char r => (1, r)
  | String "-"%char r => (-1, r)
  | _ => (1, s)
  end.

(** The optional exponent part [e±ddd]: the exponent and the rest, or
    [None] when an [e] is not followed by digits. *)
Definition readExponent (s : string) : option (Z * string) :=
  match s with
  | String c r =>
      if (Ascii.eqb c "e" || Ascii.eqb c "E")%bool then
        let '(sg, r1) := readSign r in
        let '(v, n, r2) := readDigits r1 0 0 in
        if (0 <? n)%Z then Some (sg * v, r2) else None
      else Some (0, s)
  | EmptyString => Some (0, s)
  end.

(** A signed decimal literal ([12], [-1], [2.5], [.5], [5.], [1e3]) that
    spans the whole text. *)
Definition readDecimal (s : string) : option Qc :=
  let '(sg, s1) := readSign s in
  let '(ip, ni, s2) := readDigits s1 0 0 in
  let '(fp, nf, s3) :=
    match s2 with
    | String "."%char r => readDigits r 0 0
    | _ => (0, 0, s2)
    end in
  if (0 <? ni + nf)%Z then
    match readExponent s3 with
    | Some (ex, EmptyString) =>
        Some (Q2Qc ((inject_Z sg * (inject_Z ip + inject_Z fp / (10 ^ nf)%Q))
                    * (10 ^ ex)%Q)%Q)
    | _ => None
    end
  else None.

(** The value of a digit in the given radix (2, 8 or 16). *)
Definition radixDigit (radix : Z) (c : ascii) : option Z :=
  let n := Z.of_nat (nat_of_ascii c) in
  let v := if ((48 <=? n) && (n <=? 57))%Z then n - 48
           else if ((97 <=? n) && (n <=? 102))%Z then n - 87
           else if ((65 <=? n) && (n <=? 70))%Z then n - 55
           else 16 in
  if (v <? radix)%Z then Some v else None.

Fixpoint readRadixDigits (radix : Z) (s : string) (acc : Z) : option Z :=
  match s with
  | EmptyString => Some acc
  | String c r =>
      match radixDigit radix c with
      | Some v => readRadixDigits radix r (radix * acc + v)
      | None => None
      end
  end.

(** An unsigned integer literal in radix 16, 8 or 2 ([0x1F], [0o17],
    [0b101]) that spans the whole text. *)
Definition readRadix (s : string) : option Z :=
  match s with
  | String "0"%char (String x (String c r)) =>
      if (Ascii.eqb x "x" || Ascii.eqb x "X")%bool then readRadixDigits 16 (String c r) 0
      else if (Ascii.eqb x "o" || Ascii.eqb x "O")%bool then readRadixDigits 8 (String c r) 0
      else if (Ascii.eqb x "b" || Ascii.eqb x "B")%bool then readRadixDigits 2 (String c r) 0
      else None
  | _ => None
  end.

(** [Number(s)] on a string: the trimmed text is empty (zero), a decimal
    literal or an integer literal in radix 16, 8 or 2; anything else is
    [NaN]. The texts [Infinity], [+Infinity] and [-Infinity] have no
    counterpart among the numbers of the embedding and are read as [NaN]
    too. A decimal literal is read as the exact decimal. *)
Definition StringToNumber (s : string) : number :=
  match trim s with
  | EmptyString => ofZ 0
  | t => match readDecimal t with
         | Some q => Fin q
         | None => match readRadix t with
                   | Some z => ofZ z
                   | None => NaN
                   end
         end
  end.

Definition digitChar (d : Z) : ascii := ascii_of_nat (Z.to_nat (48 + d)).

(** Decimal digits after the point by long division: [r / d] with
    [0 <= r < d], at most [fuel] digits. *)
Fixpoint fractionDigits (fuel : nat) (r d : Z) : string :=
  match fuel with
  | O => EmptyString
  | S fuel' =>
      if (r =? 0)%Z then EmptyString
      else String (digitChar (10 * r / d)) (fractionDigits fuel' ((10 * r) mod d) d)
  end.

(** The decimal digits of a natural number in front of [tail], by repeated
    division; [fuel] bounds the number of digits. *)
Fixpoint digitsOf (fuel : nat) (z : Z) (tail : string) : string :=
  match fuel with
  | O => tail
  | S fuel' =>
      let tail' := String (digitChar (z mod 10)) tail in
      if (z / 10 =? 0)%Z then tail' else digitsOf fuel' (z / 10) tail'
  end.

(** A natural number has no more decimal digits than binary digits. *)
Definition naturalString (z : Z) : string :=
  digitsOf (S (Z.to_nat (Z.log2 z))) z EmptyString.

(** [a / d] in positional notation, for [0 <= a] and [0 < d]: the integer
    part and, after a point, the decimals by long division, at most [fuel]
    of them. *)
Definition positional (fuel : nat) (a d : Z) : string :=
  (naturalString (a / d)
     ++ (if (a mod d =? 0)%Z then EmptyString
         else "." ++ fractionDigits fuel (a mod d) d))%string.

(** The number of decimal digits of a positive integer, less one. *)
Fixpoint exponentOf (fuel : nat) (z : Z) : Z :=
  match fuel with
  | O => 0
  | S fuel' => if (z <? 10)%Z then 0 else 1 + exponentOf fuel' (z / 10)
  end.

(** For [0 < a < d]: how many times [a / d] is multiplied by 10 to reach
    1, that is the place of its first decimal that is not 0. *)
Fixpoint smallExponent (fuel : nat) (a d : Z) : Z :=
  match fuel with
  | O => 0
  | S fuel' => if (d <=? a)%Z then 0 else 1 + smallExponent fuel' (10 * a) d
  end.

(** [String(n)] for a number: positional notation from 1e-6 up to, and
    not including, 1e21, and for 0; otherwise exponent notation, the
    mantissa with one digit before the point ([1e+21], [1.5e-7]). The
    digits are those of the exact decimal expansion, cut after 20
    decimals. (A double prints as the shortest decimal that reads back as
    the same double.) *)
Definition numberToString (n : number) : string :=
  match n with
  | NaN => "NaN"
  | Fin q =>
      let p := Qnum q in
      let d := Zpos (Qden q) in
      let a := Z.abs p in
      let sign := if (p <? 0)%Z then "-" else EmptyString in
      if (10 ^ 21 * d <=? a)%Z then
        let k := exponentOf (S (Z.to_nat (Z.log2 (a / d)))) (a / d) in
        (sign ++ positional (20 + Z.to_nat k) a (d * 10 ^ k)
           ++ "e+" ++ naturalString k)%string
      else if ((0 <? a) && (a * 10 ^ 6 <? d))%bool%Z then
        let k := smallExponent (S (Z.to_nat (Z.log2 d))) a d in
        (sign ++ positional 20 (a * 10 ^ k) d ++ "e-" ++ naturalString k)%string
      else (sign ++ positional 20 a d)%string
  end.

(* ===================================================================== *)
(** * JavaScript values and their coercions *)
(* ===================================================================== *)

Inductive value : Type :=
| Undefined
| Null
| Boolean (b : bool)
| Num (n : number)
| Str (s : string).

Definition isZeroOrNaN (n : number) : bool :=
  match n with
  | NaN => true
  | Fin q => if Qc_eq_dec q (Q2Qc 0) then true else false
  end.

Definition ToBoolean (v : value) : bool :=
  match v with
  | Undefined | Null => false
  | Boolean b => b
  | Num n => negb (isZeroOrNaN n)
  | Str s => negb (String.eqb s EmptyString)
  end.

Definition ToNumber (v : value) : number :=
  match v with
  | Undefined => NaN
  | Null => ofZ 0
  | Boolean b => if b then ofZ 1 else ofZ 0
  | Num n => n
  | Str s => StringToNumber s
  end.

Definition ToString (v : value) : string :=
  match v with
  | Undefined => "undefined"
  | Null => "null"
  | Boolean b => if b then "true" else "false"
  | Num n => numberToString n
  | Str s => s
  end.

(** [a || b] *)
Definition logicalOr (a b : value) : value := if ToBoolean a then a else b.

(** The global [isNaN(v)] *)
Definition isNaN (v : value) : bool :=
  match ToNumber v with
  | NaN => true
  | Fin _ => false
  end.

(** [v < n] against a number: both sides are compared as numbers. *)
Definition ltNumber (v : value) (n : number) : bool := JS.lt (ToNumber v) n.

(* ===================================================================== *)
(** * Dates *)
(* ===================================================================== *)

(** [s.slice(0, 7)]: the year-month key of an ISO date. *)
Definition slice7 (s : string) : string := String.substring 0 7 s.

(** [a.localeCompare(b)] as a sign. On the dates the date input produces
    (fixed-width [YYYY-MM-DD], digits and hyphens at the same places) the
    collation order is the order of the character codes, and the embedding
    uses that order for every string. *)
Definition localeCompare (a b : string) : Z :=
  match String.compare a b with
  | Lt => -1
  | Eq => 0
  | Gt => 1
  end.

Definition InLeapYear (y : Z) : bool :=
  ((y mod 4 =? 0) && (negb (y mod 100 =? 0) || (y mod 400 =? 0)))%Z.

(** Day number of the first of January of year [y], counted from
    1970-01-01 (ECMAScript [DayFromYear]). *)
Definition DayFromYear (y : Z) : Z :=
  365 * (y - 1970) + (y - 1969) / 4 - (y - 1901) / 100 + (y - 1601) / 400.

Definition daysInMonth (y m : Z) : Z :=
  if (m =? 2)%Z then (if InLeapYear y then 29 else 28)
  else if ((m =? 4) || (m =? 6) || (m =? 9) || (m =? 11))%Z then 30
  else 31.

(** Days of the year before month [m] (1 to 12). *)
Fixpoint daysBeforeMonth (y : Z) (m : nat) : Z :=
  match m with
  | O => 0
  | S O => 0
  | S m' => daysBeforeMonth y m' + daysInMonth y (Z.of_nat m')
  end.

Definition MakeDay (y m d : Z) : Z :=
  DayFromYear y + daysBeforeMonth y (Z.to_nat m) + (d - 1).

Definition msPerDay : Z := 1000 * 60 * 60 * 24.

Definition twoDigits (a b : ascii) : option Z :=
  if (isDigit a && isDigit b)%bool then Some (10 * digitValue a + digitValue b)
  else None.

(** The day number of a date-only ISO text [YYYY-MM-DD] naming a day of the
    calendar. *)
Definition parseDay (s : string) : option Z :=
  match s with
  | String y1 (String y2 (String y3 (String y4 (String "-"%char
      (String m1 (String m2 (String "-"%char
        (String d1 (String d2 EmptyString))))))))) =>
      match twoDigits y1 y2, twoDigits y3 y4, twoDigits m1 m2, twoDigits d1 d2 with
      | Some yh, Some yl, Some m, Some d =>
          let y := 100 * yh + yl in
          if ((1 <=? m) && (m <=? 12) && (1 <=? d) && (d <=? daysInMonth y m))%Z
          then Some (MakeDay y m d) else None
      | _, _, _, _ => None
      end
  | _ => None
  end.

(** The time value of [new Date(s)], in milliseconds since the epoch: a
    date-only ISO text is midnight UTC of that day. An Invalid Date has the
    time value [NaN]; the other spellings [Date] accepts (a time part, a
    year alone, engine-specific forms) are outside the modelled fragment and
    read as invalid. *)
Definition newDate (s : string) : number :=
  match parseDay s with
  | Some d => ofZ (d * msPerDay)
  | None => NaN
  end.

(* ===================================================================== *)
(** * Array.prototype.sort with a comparator *)
(* ===================================================================== *)

(** The sort is stable. For a comparator that is a total preorder every
    stable sort yields the same array, here computed by insertion: each
    element, in array order, goes before the first element that the
    comparator puts after it. *)
Section Sort.
Context {A : Type} (cmp : A -> A -> Z).

Fixpoint insertSorted (x : A) (l : list A) : list A :=
  match l with
  | [] => [x]
  | y :: l' => if (0 <? cmp y x)%Z then x :: l else y :: insertSorted x l'
  end.

Definition sortWith (l : list A) : list A :=
  fold_left (fun acc x => insertSorted x acc) l [].
End Sort.

(* ===================================================================== *)
(** * Data model *)
(* ===================================================================== *)

(** An entry as the components read it: [date] is used as a string
    ([e.date.slice]), [hours] goes through [Number(e.hours || 0)] and may
    be any primitive value, [note] is a string or absent (the export
    defaults it to the empty string). *)
Module Entry.
Record t : Type := make {
  id : string;
  date : string;
  hours : value;
  note : option string
}.
End Entry.

Module Item.
Record t : Type := make {
  id : string;
  name : string;
  price : number
}.
End Item.

(** A wishlist item with its [weeksNeeded] annotation. *)
Module TimedItem.
Record t : Type := make {
  id : string;
  name : string;
  price : number;
  weeksNeeded : number
}.
End TimedItem.

Record ChartPoint : Type := { month : string; earnings : number }.

(* ===================================================================== *)
(** * Derived values (the same text in both components) *)
(* ===================================================================== *)

Definition zero : value := Num (ofZ 0).

(** [Number(e.hours || 0)] *)
Definition hoursNumber (e : Entry.t) : number :=
  ToNumber (logicalOr (Entry.hours e) zero).

(** [Number(wage || 0)], also used for [savePct] *)
Definition settingNumber (x : number) : number :=
  ToNumber (logicalOr (Num x) zero).

Definition totalHours (entries : list Entry.t) : number :=
  fold_left (fun s e => JS.add s (hoursNumber e)) entries (ofZ 0).

Definition totalEarnings (entries : list Entry.t) (wage : number) : number :=
  JS.mul (totalHours entries) (settingNumber wage).

Definition recommendedSavings (entries : list Entry.t) (wage savePct : number)
  : number :=
  JS.mul (totalEarnings entries wage) (JS.div (settingNumber savePct) (ofZ 100)).

Definition spendable (entries : list Entry.t) (wage savePct : number) : number :=
  JS.sub (totalEarnings entries wage) (recommendedSavings entries wage savePct).

(** [map[m]] on the object used as a dictionary. *)
Definition getKey (map : gmap string number) (m : string) : value :=
  match map !! m with
  | Some n => Num n
  | None => Undefined
  end.

(** One turn of the loop of [chartData]. *)
Definition chartStep (wage : number) (map : gmap string number) (e : Entry.t)
  : gmap string number :=
  let m := slice7 (Entry.date e) in
  <[ m := JS.add (ToNumber (logicalOr (getKey map m) zero))
                 (JS.mul (hoursNumber e) (settingNumber wage)) ]> map.

Definition chartMap (entries : list Entry.t) (wage : number) : gmap string number :=
  fold_left (chartStep wage) entries ∅.

(** [Object.keys(map).sort()]: the keys in the order of their character
    codes. *)
Definition sortedKeys (map : gmap string number) : list string :=
  merge_sort String.le (map_to_list map).*1.

Definition chartData (entries : list Entry.t) (wage : number) : list ChartPoint :=
  let map := chartMap entries wage in
  List.map
    (fun k => {| month := k;
                 earnings := JS.div (JS.round (JS.mul (ToNumber (getKey map k)) (ofZ 100)))
                                    (ofZ 100) |})
    (sortedKeys map).

Definition byDate (a b : Entry.t) : Z := localeCompare (Entry.date a) (Entry.date b).

Definition weeklyAverage (entries : list Entry.t) (totalEarnings : number) : number :=
  match entries with
  | [] => ofZ 0
  | e0 :: _ =>
      let sorted := sortWith byDate entries in
      let first := newDate (Entry.date (hd e0 sorted)) in
      let last := newDate (Entry.date (List.last sorted e0)) in
      let weeks :=
        JS.max (ofZ 1) (JS.ceil (JS.div (JS.sub last first) (ofZ (1000 * 60 * 60 * 24 * 7)))) in
      JS.div totalEarnings weeks
  end.

Definition weeksNeededOf (price spendable weeklyAverage : number) : number :=
  let needed := JS.sub price spendable in
  if (JS.gt needed (ofZ 0) && JS.gt weeklyAverage (ofZ 0))%bool
  then JS.ceil (JS.div needed weeklyAverage)
  else ofZ 0.

Definition wishlistWithTime (wishlist : list Item.t) (spendable weeklyAverage : number)
  : list TimedItem.t :=
  List.map
    (fun item =>
       {| TimedItem.id := Item.id item;
          TimedItem.name := Item.name item;
          TimedItem.price := Item.price item;
          TimedItem.weeksNeeded := weeksNeededOf (Item.price item) spendable weeklyAverage |})
    wishlist.

(** [affordableItems] of the UK version. *)
Definition affordableItems (wishlist : list Item.t) (spendable : number) : list Item.t :=
  List.filter (fun w => JS.le (Item.price w) spendable) wishlist.

(** What both components print beside a wishlist item: the number of weeks
    when [weeksNeeded > 0], and [now] otherwise. *)
Definition timeLabel (w : TimedItem.t) : string :=
  if JS.gt (TimedItem.weeksNeeded w) (ofZ 0)
  then numberToString (TimedItem.weeksNeeded w) ++ " wks"
  else "now".

(* ===================================================================== *)
(** * CSV export *)
(* ===================================================================== *)

Definition dquote : ascii := "034"%char.
Definition comma : ascii := ","%char.
Definition newline : ascii := "010"%char.

(** The [replace] call of [exportCSV], with the global pattern that matches
    a double quote: every double quote is written twice. *)
Fixpoint escapeQuotes (s : string) : string :=
  match s with
  | String c r =>
      if Ascii.eqb c dquote then String dquote (String dquote (escapeQuotes r))
      else String c (escapeQuotes r)
  | EmptyString => EmptyString
  end.

(** The note of a row: the note itself, or the empty string when absent. *)
Definition noteText (r : Entry.t) : string :=
  match Entry.note r with
  | Some s => s
  | None => EmptyString
  end.

Definition csvRow (r : Entry.t) : string :=
  Entry.date r ++ String comma (ToString (Entry.hours r))
    ++ String comma (String dquote (escapeQuotes (noteText r) ++ String dquote EmptyString)).

Definition csvHeader : string := "date,hours,note".

(** The text handed to the [Blob] by [exportCSV]: the rows joined by line
    feeds. *)
Definition exportCSV (entries : list Entry.t) : string :=
  String.concat (String newline EmptyString) (csvHeader :: List.map csvRow entries).

(* ===================================================================== *)
(** * Component state and handlers *)
(* ===================================================================== *)

(** What a handler shows to the user: nothing, or an [alert]. *)
Inductive signal : Type :=
| Silent
| Alert (msg : string).

(** The state both components keep with [useState]: the three stores and
    the fields of the two forms. (The table, theme and month selection of
    the first component do not enter any store.) *)
Record State : Type := mkState {
  entries : list Entry.t;
  wage : number;
  savePct : number;
  wishlist : list Item.t;
  date : string;
  hours : value;
  note : string;
  itemName : string;
  itemPrice : value
}.

Definition setEntries (f : list Entry.t -> list Entry.t) (st : State) : State :=
  mkState (f (entries st)) (wage st) (savePct st) (wishlist st)
          (date st) (hours st) (note st) (itemName st) (itemPrice st).

Definition setWishlist (f : list Item.t -> list Item.t) (st : State) : State :=
  mkState (entries st) (wage st) (savePct st) (f (wishlist st))
          (date st) (hours st) (note st) (itemName st) (itemPrice st).

Definition setWage (v : number) (st : State) : State :=
  mkState (entries st) v (savePct st) (wishlist st)
          (date st) (hours st) (note st) (itemName st) (itemPrice st).

Definition setSavePct (v : number) (st : State) : State :=
  mkState (entries st) (wage st) v (wishlist st)
          (date st) (hours st) (note st) (itemName st) (itemPrice st).

Definition setDate (v : string) (st : State) : State :=
  mkState (entries st) (wage st) (savePct st) (wishlist st)
          v (hours st) (note st) (itemName st) (itemPrice st).

Definition setHours (v : value) (st : State) : State :=
  mkState (entries st) (wage st) (savePct st) (wishlist st)
          (date st) v (note st) (itemName st) (itemPrice st).

Definition setNote (v : string) (st : State) : State :=
  mkState (entries st) (wage st) (savePct st) (wishlist st)
          (date st) (hours st) v (itemName st) (itemPrice st).

Definition setItemName (v : string) (st : State) : State :=
  mkState (entries st) (wage st) (savePct st) (wishlist st)
          (date st) (hours st) (note st) v (itemPrice st).

Definition setItemPrice (v : value) (st : State) : State :=
  mkState (entries st) (wage st) (savePct st) (wishlist st)
          (date st) (hours st) (note st) (itemName st) v.

(** The state of a first run (nothing in local storage), on the day
    [today]. *)
Definition initialState (today : string) : State :=
  mkState [] (ofZ 15) (ofZ 20) [] today (Num (ofZ 8)) EmptyString EmptyString zero.

(** Handlers shared by both components. [uid()] draws from [Math.random];
    the handlers below take the drawn identifier as the argument [uid]. *)
Definition removeEntry (id : string) : State -> State :=
  setEntries (List.filter (fun e => negb (String.eqb (Entry.id e) id))).

Definition removeWishlist (id : string) : State -> State :=
  setWishlist (List.filter (fun w => negb (String.eqb (Item.id w) id))).

(** [clearAll]: [confirmed] is the answer to the [confirm] dialog. *)
Definition clearAll (confirmed : bool) (st : State) : State :=
  if negb confirmed then st
  else setSavePct (ofZ 20) (setWage (ofZ 15)
         (setWishlist (fun _ => []) (setEntries (fun _ => []) st))).

(** ** The tracker with the data table ([part_000]) *)
Module Tracker.

Definition addEntry (uid : string) (st : State) : signal * State :=
  if negb (ToBoolean (Str (date st))) then (Alert "Please select a date", st)
  else if (isNaN (hours st) || ltNumber (hours st) (ofZ 0))%bool then
    (Alert "Please enter a valid positive number of hours", st)
  else
    let newEntry :=
      Entry.make uid (date st) (Num (ToNumber (hours st))) (Some (note st)) in
    (Silent,
     setHours (Num (ofZ 8))
       (setNote EmptyString
          (setEntries (fun s => sortWith byDate (s ++ [newEntry])%list) st))).

Definition updateEntry (id field value : string) (e : Entry.t) : Entry.t :=
  if negb (String.eqb (Entry.id e) id) then e
  else if String.eqb field "hours" then
    let n := ToNumber (Str value) in
    if (isNaN (Num n) || JS.lt n (ofZ 0))%bool then e
    else Entry.make (Entry.id e) (Entry.date e) (Num n) (Entry.note e)
  else if String.eqb field "note" then
    Entry.make (Entry.id e) (Entry.date e) (Entry.hours e) (Some value)
  else e.

Definition updateEntryField (id field value : string) : State -> State :=
  setEntries (List.map (updateEntry id field value)).

Definition addWishlist (uid : string) (st : State) : signal * State :=
  if negb (ToBoolean (Str (trim (itemName st)))) then
    (Alert "Please enter item name", st)
  else if (isNaN (itemPrice st) || ltNumber (itemPrice st) (ofZ 0))%bool then
    (Alert "Please enter a valid price", st)
  else
    let w := Item.make uid (trim (itemName st)) (ToNumber (itemPrice st)) in
    (Silent,
     setItemPrice zero
       (setItemName EmptyString (setWishlist (fun s => (s ++ [w])%list) st))).

End Tracker.

(** ** The UK version ([part_001]) *)
Module TrackerUK.

Definition addEntry (uid : string) (st : State) : signal * State :=
  let newEntry :=
    Entry.make uid (date st) (Num (ToNumber (hours st))) (Some (note st)) in
  (Silent,
   setHours (Num (ofZ 8))
     (setNote EmptyString
        (setEntries (fun s => sortWith byDate (s ++ [newEntry])%list) st))).

Definition addWishlist (uid : string) (st : State) : signal * State :=
  let name := if ToBoolean (Str (itemName st)) then itemName st else "Untitled" in
  let w := Item.make uid name (ToNumber (itemPrice st)) in
  (Silent,
   setItemPrice zero
     (setItemName EmptyString (setWishlist (fun s => (s ++ [w])%list) st))).

End TrackerUK.

(** ** Runs of the tracker

    The actions of a session of the first component: edits of the form
    fields and of the settings, and the store handlers. [AddEntry] and
    [AddWishlist] carry the identifier that [uid()] drew. *)
Inductive action : Type :=
| SetDate (v : string)
| SetHours (v : string)
| SetNote (v : string)
| SetItemName (v : string)
| SetItemPrice (v : string)
| SetWage (v : string)
| SetSavePct (v : string)
| AddEntry (uid : string)
| RemoveEntry (id : string)
| UpdateEntryField (id field v : string)
| AddWishlist (uid : string)
| RemoveWishlist (id : string)
| ClearAll (confirmed : bool).

Definition step (st : State) (a : action) : State :=
  match a with
  | SetDate v => setDate v st
  | SetHours v => setHours (Str v) st
  | SetNote v => setNote v st
  | SetItemName v => setItemName v st
  | SetItemPrice v => setItemPrice (Str v) st
  | SetWage v => setWage (ToNumber (Str v)) st
  | SetSavePct v => setSavePct (ToNumber (Str v)) st
  | AddEntry uid => snd (Tracker.addEntry uid st)
  | RemoveEntry id => removeEntry id st
  | UpdateEntryField id field v => Tracker.updateEntryField id field v st
  | AddWishlist uid => snd (Tracker.addWishlist uid st)
  | RemoveWishlist id => removeWishlist id st
  | ClearAll confirmed => clearAll confirmed st
  end.

Definition run (st : State) (acts : list action) : State := fold_left step acts st.

(** No two entries share an identifier, and no two wishlist items do. *)
Definition uniqueIds (st : State) : Prop :=
  List.NoDup (List.map Entry.id (entries st))
  /\ List.NoDup (List.map Item.id (wishlist st)).

(** Every identifier drawn along the run is new to its collection at the
    time of the draw. *)
Fixpoint freshDraws (st : State) (acts : list action) : Prop :=
  match acts with
  | [] => True
  | a :: rest =>
      match a with
      | AddEntry uid => ~ In uid (List.map Entry.id (entries st))
      | AddWishlist uid => ~ In uid (List.map Item.id (wishlist st))
      | _ => True
      end /\ freshDraws (step st a) rest
  end.

(* ===================================================================== *)
(** * Reading CSV text back *)
(* ===================================================================== *)

(** Where the reader stands inside a record. *)
Inductive readerMode : Type :=
| FieldStart
| Unquoted
| Quoted
| QuoteSeen.

(** Modelled from the spec: the repository has no CSV reader; the round
    trip of the export interface is stated against this reader of the
    common CSV format. Fields are separated by commas and records by line
    feeds; a field that starts with a double quote runs to the closing
    double quote, and inside it two double quotes stand for one. [field]
    and [row] hold what has been read of the current field and record,
    [rows] the finished records. *)
Fixpoint readCSV (s : string) (mode : readerMode) (field : string)
    (row : list string) (rows : list (list string)) : option (list (list string)) :=
  match s with
  | EmptyString =>
      match mode with
      | Quoted => None
      | _ => Some (rows ++ [row ++ [field]])%list
      end
  | String c r =>
      match mode with
      | FieldStart =>
          if Ascii.eqb c dquote then readCSV r Quoted EmptyString row rows
          else if Ascii.eqb c comma then readCSV r FieldStart EmptyString (row ++ [EmptyString])%list rows
          else if Ascii.eqb c newline then readCSV r FieldStart EmptyString [] (rows ++ [row ++ [EmptyString]])%list
          else readCSV r Unquoted (String c EmptyString) row rows
      | Unquoted =>
          if Ascii.eqb c dquote then None
          else if Ascii.eqb c comma then readCSV r FieldStart EmptyString (row ++ [field])%list rows
          else if Ascii.eqb c newline then readCSV r FieldStart EmptyString [] (rows ++ [row ++ [field]])%list
          else readCSV r Unquoted (field ++ String c EmptyString) row rows
      | Quoted =>
          if Ascii.eqb c dquote then readCSV r QuoteSeen field row rows
          else readCSV r Quoted (field ++ String c EmptyString) row rows
      | QuoteSeen =>
          if Ascii.eqb c dquote then readCSV r Quoted (field ++ String dquote EmptyString) row rows
          else if Ascii.eqb c comma then readCSV r FieldStart EmptyString (row ++ [field])%list rows
          else if Ascii.eqb c newline then readCSV r FieldStart EmptyString [] (rows ++ [row ++ [field]])%list
          else None
      end
  end.

Definition parseCSV (s : string) : option (list (list string)) :=
  readCSV s FieldStart EmptyString [] [].

(** A record read back as an entry tuple: the hours text goes through
    [Number]. *)
Definition decodeRow (fields : list string) : option (string * value * string) :=
  match fields with
  | [d; h; n] => Some (d, Num (StringToNumber h), n)
  | _ => None
  end.

(** Text that can stand in an unquoted field: no comma, double quote or
    line feed. *)
Fixpoint plainText (s : string) : bool :=
  match s with
  | String c r =>
      negb (Ascii.eqb c dquote) && negb (Ascii.eqb c comma)
        && negb (Ascii.eqb c newline) && plainText r
  | EmptyString => true
  end.

(** The long division of [r] by [d] ends within [fuel] digits. *)
Fixpoint terminates (fuel : nat) (r d : Z) : bool :=
  match fuel with
  | O => (r =? 0)%Z
  | S fuel' => (r =? 0)%Z || terminates fuel' ((10 * r) mod d) d
  end.

(** A number that [numberToString] prints in full: [NaN], or a rational
    with at most 20 decimals. *)
Definition decimalNumber (n : number) : Prop :=
  match n with
  | NaN => True
  | Fin q => terminates 20 (Z.abs (Qnum q) mod Zpos (Qden q)) (Zpos (Qden q)) = true
  end.

(** The characters of a printed number. *)
Definition numberChar (c : ascii) : bool :=
  isDigit c || Ascii.eqb c "-" || Ascii.eqb c "." || Ascii.eqb c "N" || Ascii.eqb c "a"
  || Ascii.eqb c "e" || Ascii.eqb c "+".

Fixpoint allChars (ok : ascii -> bool) (s : string) : bool :=
  match s with
  | String c r => ok c && allChars ok r
  | EmptyString => true
  end.

(** An entry as the components store it for export: the date is plain text
    (as every value of the date input is) and the hours are a decimal
    number. *)
Definition exportable (e : Entry.t) : Prop :=
  plainText (Entry.date e) = true
  /\ match Entry.hours e with
     | Num n => decimalNumber n
     | _ => False
     end.

(** The fields of the row of an entry. *)
Definition rowFields (e : Entry.t) : list string :=
  [Entry.date e; ToString (Entry.hours e); noteText e].

(* ===================================================================== *)
(** * The specification's vocabulary *)
(* ===================================================================== *)

Definition sumNumbers (l : list number) : number := fold_left JS.add l (ofZ 0).

(** What an [hours] value adds to the total. *)
Definition hoursContribution (v : value) : number :=
  match v with
  | Undefined | Null => ofZ 0
  | Boolean b => if b then ofZ 1 else ofZ 0
  | Num NaN => ofZ 0
  | Num (Fin q) => Fin q
  | Str s => StringToNumber s
  end.

(** The hours of the entry are read as a number. *)
Definition numericHours (e : Entry.t) : Prop := hoursNumber e <> NaN.

(** In the specification's words: the year-month key of a date is its
    first 7 characters (the whole text when it is shorter). It is defined
    here by its own recursion, apart from the [slice] of the code. *)
Fixpoint firstChars (n : nat) (s : string) : string :=
  match n, s with
  | S n', String c r => String c (firstChars n' r)
  | _, _ => EmptyString
  end.

Definition yearMonth (date : string) : string := firstChars 7 date.

(** The year-month key of an entry and the entries of one month. *)
Definition monthOf (e : Entry.t) : string := yearMonth (Entry.date e).

Definition monthGroup (k : string) (entries : list Entry.t) : list Entry.t :=
  List.filter (fun e => String.eqb (monthOf e) k) entries.

(** The sum of [hours * hourlyWage] over the entries of month [k], added
    in the order of the entries, starting from 0. *)
Definition monthEarnings (k : string) (entries : list Entry.t) (w : Qc) : number :=
  sumNumbers (List.map (fun e => JS.mul (hoursNumber e) (Fin w)) (monthGroup k entries)).


(** In the specification's words: a note as the export interface writes
    it, each double quote of the note written twice and the whole between
    double quotes. It is defined here character by character, apart from
    the [replace] of the code. *)
Definition doubledQuotes (s : string) : string :=
  String.concat EmptyString
    (List.map (fun c => if Ascii.eqb c dquote
                        then String dquote (String dquote EmptyString)
                        else String c EmptyString)
              (list_ascii_of_string s)).

Definition quotedField (s : string) : string :=
  String dquote (doubledQuotes s ++ String dquote EmptyString).

(** The months of a chart series ascend strictly. *)
Definition monthBefore (a b : string) : Prop := String.ltb a b = true.


(** [d] is the earliest (the latest) date of the entries, by the order of
    the character codes. *)
Definition isEarliest (d : string) (entries : list Entry.t) : Prop :=
  In d (List.map Entry.date entries)
  /\ Forall (fun e => String.leb d (Entry.date e) = true) entries.

Definition isLatest (d : string) (entries : list Entry.t) : Prop :=
  In d (List.map Entry.date entries)
  /\ Forall (fun e => String.leb (Entry.date e) d = true) entries.

(** [a] may stand before [b] for the comparator [cmp]. *)
Definition notAfter {A : Type} (cmp : A -> A -> Z) (a b : A) : Prop :=
  (cmp a b <= 0)%Z.

(** The entries are in ascending order of date. *)
Definition dateNotAfter (a b : Entry.t) : Prop :=
  String.leb (Entry.date a) (Entry.date b) = true.

(* ===================================================================== *)
(** * Table, month view and settings of the first component *)
(* ===================================================================== *)

Module SortConfig.
Record t : Type := make {
  key : string;
  direction : string
}.
End SortConfig.

(** [a[key]] on an entry. *)
Definition property (e : Entry.t) (key : string) : value :=
  if String.eqb key "id" then Str (Entry.id e)
  else if String.eqb key "date" then Str (Entry.date e)
  else if String.eqb key "hours" then Entry.hours e
  else if String.eqb key "note" then
    match Entry.note e with
    | Some s => Str s
    | None => Undefined
    end
  else Undefined.

(** [a < b] on primitive values: two strings are compared by their
    character codes, anything else as numbers. *)
Definition lessThan (a b : value) : bool :=
  match a, b with
  | Str x, Str y => String.ltb x y
  | _, _ => JS.lt (ToNumber a) (ToNumber b)
  end.

(** The comparator of [sortedEntries]. *)
Definition tableCompare (sortConfig : SortConfig.t) (a b : Entry.t) : Z :=
  let byHours := String.eqb (SortConfig.key sortConfig) "hours" in
  let asc := String.eqb (SortConfig.direction sortConfig) "asc" in
  let v1 := property a (SortConfig.key sortConfig) in
  let v2 := property b (SortConfig.key sortConfig) in
  let v1 := if byHours then Num (ToNumber v1) else v1 in
  let v2 := if byHours then Num (ToNumber v2) else v2 in
  if lessThan v1 v2 then (if asc then -1 else 1)
  else if lessThan v2 v1 then (if asc then 1 else -1)
  else 0.

(** [sortedEntries]: a sorted copy of the entries; [None] is the [null]
    configuration. *)
Definition sortedEntries (entries : list Entry.t) (sortConfig : option SortConfig.t)
  : list Entry.t :=
  match sortConfig with
  | Some c => sortWith (tableCompare c) entries
  | None => entries
  end.

(** The values of [new Set(l)] in insertion order: the first occurrence of
    each string. *)
Definition setValues (l : list string) : list string :=
  fold_left (fun seen x => if existsb (String.eqb x) seen then seen else (seen ++ [x])%list)
            l [].

(** [months]: the distinct year-month keys of the entries, sorted. *)
Definition months (entries : list Entry.t) : list string :=
  merge_sort String.le (setValues (List.map (fun e => slice7 (Entry.date e)) entries)).

(** The month first selected: the last of [months], or the month of [now]
    (the ISO text of the current time) when there are no entries. *)
Definition initialSelectedMonth (entries : list Entry.t) (now : string) : string :=
  match months entries with
  | [] => slice7 now
  | m :: ms => List.last (m :: ms) m
  end.

(** The entries listed for the selected month. *)
Definition monthEntries (entries : list Entry.t) (selectedMonth : string) : list Entry.t :=
  List.filter (fun e => String.eqb (slice7 (Entry.date e)) selectedMonth) entries.

(** [monthlyEarnings] *)
Definition monthlyEarnings (entries : list Entry.t) (wage : number) (selectedMonth : string)
  : number :=
  fold_left (fun sum e => JS.add sum (JS.mul (hoursNumber e) (settingNumber wage)))
            (monthEntries entries selectedMonth) (ofZ 0).

(** [canAffordAll] of the UK version. *)
Definition canAffordAll (wishlist : list Item.t) (spendable : number) : bool :=
  JS.le (fold_left (fun s i => JS.add s (Item.price i)) wishlist (ofZ 0)) spendable.

(** [localStorage.getItem(key)]: the stored text, or [null]. *)
Definition getItem (stored : option string) : value :=
  match stored with
  | Some s => Str s
  | None => Null
  end.

(** The initial value of a setting: [Number(localStorage.getItem(key)) || d]
    with [d = 15] for the wage and [d = 20] for the savings percentage. *)
Definition loadSetting (d : Z) (stored : option string) : number :=
  ToNumber (logicalOr (Num (ToNumber (getItem stored))) (Num (ofZ d))).

(** What the effect of a setting stores: [String(wage)]. *)
Definition storedSetting (x : number) : string := ToString (Num x).

(* ===================================================================== *)
(** * Invariants of the stores *)
(* ===================================================================== *)

(** An entry as the first component admits it: a date that is not empty
    and hours that are a non-negative number. *)
Definition admittedEntry (e : Entry.t) : Prop :=
  Entry.date e <> EmptyString
  /\ exists q, Entry.hours e = Num (Fin q) /\ (0 <= q)%Qc.

(** A wishlist item as the first component admits it: a trimmed name that is
    not empty and a non-negative price. *)
Definition admittedItem (w : Item.t) : Prop :=
  Item.name w <> EmptyString
  /\ exists q, Item.price w = Fin q /\ (0 <= q)%Qc.

Definition sortedByDate (l : list Entry.t) : Prop := StronglySorted dateNotAfter l.

(** Entries in descending order of date. *)
Definition dateNotBefore (a b : Entry.t) : Prop :=
  String.leb (Entry.date b) (Entry.date a) = true.

(** The sum of a list of rationals. *)
Definition qsum (l : list Qc) : Qc := fold_right Qcplus (Q2Qc 0) l.

(** [x] rounded to the cent as [chartData] does it. *)
Definition roundToCents (x : number) : number :=
  JS.div (JS.round (JS.mul x (ofZ 100))) (ofZ 100).

Definition byDateAsc : SortConfig.t := SortConfig.make "date" "asc".
Definition byDateDesc : SortConfig.t := SortConfig.make "date" "desc".

(** The initial [sortConfig]. *)
Definition initialSortConfig : SortConfig.t := byDateAsc.

(** [requestSort(key)]: the configuration it sets; [None] is a [null]
    configuration. *)
Definition requestSort (key : string) (sortConfig : option SortConfig.t) : SortConfig.t :=
  let direction :=
    match sortConfig with
    | Some c =>
        if (String.eqb (SortConfig.key c) key
            && String.eqb (SortConfig.direction c) "asc")%bool
        then "desc" else "asc"
    | None => "asc"
    end in
  SortConfig.make key direction.

(** A click on the header that [SortableHeader] renders for [sortKey]: the
    header of the column the table is sorted by has no click handler, the
    other headers call [requestSort(sortKey)]. *)
Definition clickHeader (sortConfig : SortConfig.t) (sortKey : string) : SortConfig.t :=
  if String.eqb (SortConfig.key sortConfig) sortKey then sortConfig
  else requestSort sortKey (Some sortConfig).

(** Entries in ascending order of hours, read as [Number(hours)]. *)
Definition hoursNotAfter (a b : Entry.t) : Prop :=
  JS.le (ToNumber (Entry.hours a)) (ToNumber (Entry.hours b)) = true.

(** The price of the item is a number that is not negative. *)
Definition nonNegativePrice (w : Item.t) : Prop :=
  exists q, Item.price w = Fin q /\ (0 <= q)%Qc.

(** [Number(hours)] of the entry is a number. *)
Definition readableHours (e : Entry.t) : Prop := ToNumber (Entry.hours e) <> NaN.

Definition byHoursAsc : SortConfig.t := SortConfig.make "hours" "asc".

(** The rational a number stands for, with 0 for [NaN]. *)
Definition valueOf (n : number) : Qc :=
  match n with
  | Fin q => q
  | NaN => Q2Qc 0
  end.

(** The date of the entry is a calendar date [YYYY-MM-DD]. *)
Definition readableDate (e : Entry.t) : Prop := parseDay (Entry.date e) <> None.

(* ===================================================================== *)
(** * Sample data *)
(* ===================================================================== *)

(** Entries on 2024-01-15 (6 h) and 2024-01-01 (4 h). *)
Definition twoWeeks : list Entry.t :=
  [ Entry.make "e1" "2024-01-15" (Num (ofZ 6)) (Some EmptyString);
    Entry.make "e2" "2024-01-01" (Num (ofZ 4)) (Some EmptyString) ].

Definition twoEntries : State :=
  setEntries (fun _ => twoWeeks) (initialState "2024-02-01").

(** 2 h and 3 h in January 2024 and 1 h in February. *)
Definition threeEntries : list Entry.t :=
  [ Entry.make "e1" "2024-01-05" (Num (ofZ 2)) (Some EmptyString);
    Entry.make "e2" "2024-01-20" (Num (ofZ 3)) (Some EmptyString);
    Entry.make "e3" "2024-02-01" (Num (ofZ 1)) (Some EmptyString) ].

(** An entry whose note holds double quotes, a comma and a line feed, and
    an entry of 7.5 hours without a note. *)
Definition quotedNote : list Entry.t :=
  [ Entry.make "e1" "2024-03-01" (Num (ofZ 2))
      (Some ("said " ++ String dquote ("hi" ++ String dquote (", then" ++ String newline "left"))));
    Entry.make "e2" "2024-03-02" (Num (Fin (Q2Qc (15 # 2)))) None ].

(** A bicycle for 100 and a book for 20. *)
Definition sampleWishlist : list Item.t :=
  [ Item.make "w1" "bicycle" (ofZ 100); Item.make "w2" "book" (ofZ 20) ].

(** A store with three entries and two wishlist items. *)
Definition sampleStore : State :=
  setWishlist (fun _ => sampleWishlist)
    (setEntries (fun _ => threeEntries) (initialState "2024-03-10")).

(* ===================================================================== *)
(** * Facts about numbers and coercions *)
(* ===================================================================== *)

Lemma Q2Qc_this_Z (z : Z) : this (Q2Qc (inject_Z z)) = inject_Z z.
Proof.
  simpl. apply Qred_identity. simpl. apply Z.gcd_1_r.
Qed.

Lemma ofZ_inj (a b : Z) : ofZ a = ofZ b -> a = b.
Proof.
  unfold ofZ. intros H.
  assert (Hq : Q2Qc (inject_Z a) = Q2Qc (inject_Z b)).
  { exact (f_equal (fun n => match n with Fin q => q | NaN => Q2Qc 0 end) H). }
  apply Q2Qc_eq_iff in Hq. exact (proj1 (inject_Z_injective a b) Hq).
Qed.

Lemma lt_Fin (x y : Qc) : JS.lt (Fin x) (Fin y) = true <-> (x < y)%Qc.
Proof.
  simpl. destruct (Qclt_le_dec x y) as [H | H]; split; intros H'; try easy.
  exfalso. exact (Qcle_not_lt _ _ H H').
Qed.

Lemma le_Fin (x y : Qc) : JS.le (Fin x) (Fin y) = true <-> (x <= y)%Qc.
Proof.
  simpl. destruct (Qclt_le_dec y x) as [H | H]; split; intros H'; try easy.
  exfalso. exact (Qclt_not_le _ _ H H').
Qed.

Lemma gt_zero_Fin (x : Qc) : JS.gt (Fin x) (ofZ 0) = true <-> (0 < x)%Qc.
Proof. unfold JS.gt, ofZ. apply lt_Fin. Qed.

Lemma div_Fin (x y : Qc) : y <> Q2Qc 0 -> JS.div (Fin x) (Fin y) = Fin (x / y)%Qc.
Proof.
  intros H. simpl. destruct (Qc_eq_dec y (Q2Qc 0)); [contradiction | reflexivity].
Qed.

Lemma hundred_nonzero : Q2Qc (inject_Z 100) <> Q2Qc 0.
Proof. intros H. apply (f_equal this) in H. discriminate H. Qed.

(** A finite setting is read as itself: the default of [x || 0] only
    replaces a zero by zero. *)
Lemma settingNumber_Fin (x : Qc) : settingNumber (Fin x) = Fin x.
Proof.
  unfold settingNumber, logicalOr. simpl.
  destruct (Qc_eq_dec x (Q2Qc 0)) as [-> | _]; reflexivity.
Qed.

Lemma settingNumber_NaN : settingNumber NaN = ofZ 0.
Proof. reflexivity. Qed.

Lemma fold_left_map_add {A : Type} (f : A -> number) (l : list A) (a : number) :
  fold_left (fun s e => JS.add s (f e)) l a = fold_left JS.add (List.map f l) a.
Proof.
  revert a. induction l as [| x l IH]; intros a; simpl; [reflexivity | apply IH].
Qed.

Lemma hoursNumber_contribution (e : Entry.t) :
  hoursNumber e = hoursContribution (Entry.hours e).
Proof.
  unfold hoursNumber, logicalOr.
  destruct (Entry.hours e) as [| | [|] | [| q] | s]; simpl; try reflexivity.
  - destruct (Qc_eq_dec q (Q2Qc 0)) as [-> | _]; reflexivity.
  - destruct s; reflexivity.
Qed.

(* ===================================================================== *)
(** * Summary scalars *)
(* ===================================================================== *)

(** C1. For every list of entries and all finite settings (any hourly wage
    [w], any savings percentage [p], also above 100), the summary scalars
    are [totalEarnings = totalHours * w],
    [recommendedSavings = totalEarnings * (p / 100)] and
    [spendable = totalEarnings - recommendedSavings]; nothing is clamped. *)
Theorem summary_scalars (entries : list Entry.t) (w p : Qc) :
  totalEarnings entries (Fin w) = JS.mul (totalHours entries) (Fin w)
  /\ recommendedSavings entries (Fin w) (Fin p)
     = JS.mul (totalEarnings entries (Fin w)) (Fin (p / Q2Qc (inject_Z 100))%Qc)
  /\ spendable entries (Fin w) (Fin p)
     = JS.sub (totalEarnings entries (Fin w)) (recommendedSavings entries (Fin w) (Fin p)).
Proof.
  unfold spendable, recommendedSavings, totalEarnings.
  rewrite !settingNumber_Fin.
  unfold ofZ. rewrite (div_Fin p _ hundred_nonzero).
  repeat split.
Qed.

(** With a savings percentage of 150 the spendable amount of 10 hours at
    10 an hour is -50. *)
Example spendable_negative :
  spendable [Entry.make "e1" "2024-01-01" (Num (ofZ 10)) None] (ofZ 10) (ofZ 150)
  = ofZ (-50).
Proof. reflexivity. Qed.

(* ===================================================================== *)
(** * Total hours *)
(* ===================================================================== *)

(** C7, as amended. For every list of entries, [totalHours] is the sum of
    what the [hours] fields contribute: a missing ([undefined]), [null],
    [NaN] or empty-string value contributes zero, a number contributes
    itself, and a string contributes [Number] of it, which is [NaN] when
    the string is not empty and not a numeric literal. *)
Theorem totalHours_sum (entries : list Entry.t) :
  totalHours entries
  = sumNumbers (List.map (fun e => hoursContribution (Entry.hours e)) entries)
  /\ hoursContribution Undefined = ofZ 0
  /\ hoursContribution Null = ofZ 0
  /\ hoursContribution (Num NaN) = ofZ 0
  /\ hoursContribution (Str EmptyString) = ofZ 0
  /\ (forall q, hoursContribution (Num (Fin q)) = Fin q)
  /\ (forall s, hoursContribution (Str s) = StringToNumber s).
Proof.
  repeat split.
  unfold totalHours, sumNumbers.
  rewrite fold_left_map_add. f_equal.
  apply map_ext. intros e. apply hoursNumber_contribution.
Qed.

(** An entry whose hours are the non-numeric string [abc] does not
    contribute zero: the total of that single entry is [NaN]. *)
Lemma totalHours_non_numeric_string :
  totalHours [Entry.make "e1" "2024-01-05" (Str "abc") None] = NaN
  /\ totalHours [Entry.make "e1" "2024-01-05" (Str "abc") None] <> ofZ 0.
Proof. split; [reflexivity | discriminate]. Qed.

(** Hours that are missing, [null], [NaN] or empty do count as zero. *)
Example totalHours_missing_hours :
  totalHours
    [ Entry.make "e1" "2024-01-05" Undefined None;
      Entry.make "e2" "2024-01-06" (Num (ofZ 3)) None;
      Entry.make "e3" "2024-01-07" Null None;
      Entry.make "e4" "2024-01-08" (Num NaN) None;
      Entry.make "e5" "2024-01-09" (Str EmptyString) None;
      Entry.make "e6" "2024-01-10" (Str "1.5") None ]
  = Fin (Q2Qc (9 # 2)).
Proof. apply (f_equal Fin), Qc_is_canon. reflexivity. Qed.

(* ===================================================================== *)
(** * Wishlist projection and affordability *)
(* ===================================================================== *)

Lemma Qc_pos_nonzero (w : Qc) : (0 < w)%Qc -> w <> Q2Qc 0.
Proof. intros H E. subst w. exact (Qclt_not_eq _ _ H eq_refl). Qed.

Lemma Qc_needed_pos (p s : Qc) : (0 < p - s)%Qc <-> (s < p)%Qc.
Proof. symmetry. apply Qclt_minus_iff. Qed.

Lemma Qc_div_pos (x w : Qc) : (0 < x)%Qc -> (0 < w)%Qc -> (0 < x / w)%Qc.
Proof.
  intros Hx Hw. unfold Qclt in *. unfold Qcdiv, Qcmult, Qcinv. simpl.
  rewrite !Qred_correct.
  apply Qmult_lt_0_compat; [exact Hx |].
  now apply Qinv_lt_0_compat.
Qed.


Lemma Qceiling_pos (x : Qc) : (0 < x)%Qc -> (0 < Qceiling x)%Z.
Proof.
  intros H. unfold Qclt in H.
  assert (Hc : (0 < inject_Z (Qceiling x))%Q).
  { eapply Qlt_le_trans; [exact H | apply Qle_ceiling]. }
  rewrite Zlt_Qlt. exact Hc.
Qed.

(** The two branches of [weeksNeeded] on finite numbers. *)
Lemma weeksNeededOf_positive (p s w : Qc) :
  (0 < p - s)%Qc -> (0 < w)%Qc ->
  weeksNeededOf (Fin p) (Fin s) (Fin w) = ofZ (Qceiling ((p - s) / w)%Qc).
Proof.
  intros Hn Hw. unfold weeksNeededOf.
  change (JS.sub (Fin p) (Fin s)) with (Fin (p - s)%Qc).
  rewrite (proj2 (gt_zero_Fin _) Hn), (proj2 (gt_zero_Fin _) Hw). simpl andb. cbv iota.
  rewrite (div_Fin _ _ (Qc_pos_nonzero _ Hw)). reflexivity.
Qed.

Lemma weeksNeededOf_otherwise (p s w : Qc) :
  ~ ((0 < p - s)%Qc /\ (0 < w)%Qc) ->
  weeksNeededOf (Fin p) (Fin s) (Fin w) = ofZ 0.
Proof.
  intros H. unfold weeksNeededOf.
  change (JS.sub (Fin p) (Fin s)) with (Fin (p - s)%Qc).
  destruct (JS.gt (Fin (p - s)%Qc) (ofZ 0)) eqn:E1; [| reflexivity].
  destruct (JS.gt (Fin w) (ofZ 0)) eqn:E2; [| reflexivity].
  exfalso. apply H. split; apply gt_zero_Fin; assumption.
Qed.





(** The example of the specification: spendable 40 and weekly average 20
    give 3 weeks for a price of 100, and 0 for a price of 30. *)
Lemma spec_wishlist_weeks :
  let wl := [Item.make "w1" "bike" (ofZ 100); Item.make "w2" "book" (ofZ 30)] in
  List.map TimedItem.weeksNeeded (wishlistWithTime wl (ofZ 40) (ofZ 20))
  = [ofZ 3; ofZ 0].
Proof. reflexivity. Qed.


(** On finite numbers the [weeksNeeded] annotation is 0 exactly when
    [price <= spendable] or the weekly average is not positive. *)
Lemma weeksNeeded_zero_iff (p s w : Qc) :
  weeksNeededOf (Fin p) (Fin s) (Fin w) = ofZ 0 <-> (p <= s)%Qc \/ (w <= 0)%Qc.
Proof.
  split.
  - intros H.
    destruct (Qclt_le_dec s p) as [Hsp | Hsp]; [| now left].
    destruct (Qclt_le_dec 0 w) as [Hw | Hw]; [| now right].
    exfalso.
    assert (Hn : (0 < p - s)%Qc) by exact (proj2 (Qc_needed_pos p s) Hsp).
    rewrite (weeksNeededOf_positive p s w Hn Hw) in H.
    apply ofZ_inj in H.
    pose proof (Qceiling_pos _ (Qc_div_pos _ _ Hn Hw)). lia.
  - intros H. apply weeksNeededOf_otherwise. intros [Hn Hw].
    destruct H as [H | H].
    + apply (proj1 (Qc_needed_pos p s)) in Hn. exact (Qclt_not_le _ _ Hn H).
    + exact (Qclt_not_le _ _ Hw H).
Qed.

(** C5, as amended. An item is among the [affordableItems] exactly when it
    is on the wishlist with [price <= spendable]; and when the weekly
    average is positive, its [weeksNeeded] annotation is 0 exactly when
    [price <= spendable]. *)
Theorem affordability (wishlist : list Item.t) (id name : string) (p s w : Qc) :
  (0 < w)%Qc ->
  (In (Item.make id name (Fin p)) (affordableItems wishlist (Fin s))
   <-> In (Item.make id name (Fin p)) wishlist /\ (p <= s)%Qc)
  /\ (weeksNeededOf (Fin p) (Fin s) (Fin w) = ofZ 0 <-> (p <= s)%Qc).
Proof.
  intros Hw. split.
  - unfold affordableItems. rewrite filter_In. simpl Item.price.
    rewrite le_Fin. reflexivity.
  - rewrite weeksNeeded_zero_iff. split; [| now left].
    intros [H | H]; [exact H |].
    exfalso. exact (Qclt_not_le _ _ Hw H).
Qed.

Lemma affordability_witness :
  (In (Item.make "w2" "book" (Fin (Q2Qc (inject_Z 30))))
      (affordableItems
         [Item.make "w1" "bike" (ofZ 100); Item.make "w2" "book" (ofZ 30)]
         (Fin (Q2Qc (inject_Z 40))))
   <-> In (Item.make "w2" "book" (Fin (Q2Qc (inject_Z 30))))
          [Item.make "w1" "bike" (ofZ 100); Item.make "w2" "book" (ofZ 30)]
       /\ (Q2Qc (inject_Z 30) <= Q2Qc (inject_Z 40))%Qc)
  /\ (weeksNeededOf (Fin (Q2Qc (inject_Z 30))) (Fin (Q2Qc (inject_Z 40)))
                    (Fin (Q2Qc (inject_Z 20))) = ofZ 0
      <-> (Q2Qc (inject_Z 30) <= Q2Qc (inject_Z 40))%Qc).
Proof.
  apply (affordability
           [Item.make "w1" "bike" (ofZ 100); Item.make "w2" "book" (ofZ 30)]
           "w2" "book" (Q2Qc (inject_Z 30)) (Q2Qc (inject_Z 40)) (Q2Qc (inject_Z 20))).
  reflexivity.
Defined.

(** At a first run there are no entries, so the spendable amount and the
    weekly average are 0; a wishlist item of price 100 is then annotated
    with 0 weeks and labelled [now], although its price is above the
    spendable amount and [affordableItems] leaves it out. *)
Lemma first_run_item_labelled_now :
  spendable [] (ofZ 15) (ofZ 20) = ofZ 0
  /\ weeklyAverage [] (totalEarnings [] (ofZ 15)) = ofZ 0
  /\ List.map TimedItem.weeksNeeded
       (wishlistWithTime [Item.make "w1" "bike" (ofZ 100)] (ofZ 0) (ofZ 0))
     = [ofZ 0]
  /\ List.map timeLabel
       (wishlistWithTime [Item.make "w1" "bike" (ofZ 100)] (ofZ 0) (ofZ 0))
     = ["now"]
  /\ affordableItems [Item.make "w1" "bike" (ofZ 100)] (ofZ 0) = []
  /\ ~ (weeksNeededOf (ofZ 100) (ofZ 0) (ofZ 0) = ofZ 0
        <-> JS.le (ofZ 100) (ofZ 0) = true).
Proof.
  repeat split.
  intros [H _]. specialize (H eq_refl). discriminate H.
Qed.

(* ===================================================================== *)
(** * Sorting *)
(* ===================================================================== *)

Section SortFacts.
Context {A : Type} (cmp : A -> A -> Z).

Hypothesis cmp_total : forall a b, (0 < cmp a b)%Z -> (cmp b a <= 0)%Z.
Hypothesis cmp_trans :
  forall a b c, (cmp a b <= 0)%Z -> (cmp b c <= 0)%Z -> (cmp a c <= 0)%Z.

Lemma insertSorted_Permutation (x : A) (l : list A) :
  Permutation (x :: l) (insertSorted cmp x l).
Proof.
  induction l as [| y l IH]; simpl; [reflexivity |].
  destruct (0 <? cmp y x)%Z; [reflexivity |].
  rewrite perm_swap. now apply perm_skip.
Qed.

Lemma insertSorted_sorted (x : A) (l : list A) :
  StronglySorted (notAfter cmp) l -> StronglySorted (notAfter cmp) (insertSorted cmp x l).
Proof.
  induction 1 as [| y l Hs IH Hy]; simpl.
  - repeat constructor.
  - destruct (0 <? cmp y x)%Z eqn:E.
    + apply Z.ltb_lt in E. pose proof (cmp_total _ _ E) as Hxy.
      constructor; [now constructor |].
      constructor; [exact Hxy |].
      eapply List.Forall_impl; [| exact Hy].
      intros z Hz. exact (cmp_trans _ _ _ Hxy Hz).
    + apply Z.ltb_ge in E.
      constructor; [exact IH |].
      eapply Permutation_Forall; [apply insertSorted_Permutation |].
      now constructor.
Qed.

Lemma sortWith_from_Permutation (l acc : list A) :
  Permutation (acc ++ l)%list (fold_left (fun a x => insertSorted cmp x a) l acc).
Proof.
  revert acc. induction l as [| x l IH]; intros acc; simpl.
  - now rewrite app_nil_r.
  - rewrite <- IH. rewrite <- insertSorted_Permutation.
    simpl. symmetry. apply Permutation_middle.
Qed.

Lemma sortWith_Permutation (l : list A) : Permutation l (sortWith cmp l).
Proof. exact (sortWith_from_Permutation l []). Qed.

Lemma sortWith_from_sorted (l acc : list A) :
  StronglySorted (notAfter cmp) acc ->
  StronglySorted (notAfter cmp) (fold_left (fun a x => insertSorted cmp x a) l acc).
Proof.
  revert acc. induction l as [| x l IH]; intros acc Hacc; simpl; [exact Hacc |].
  apply IH. now apply insertSorted_sorted.
Qed.

Lemma sortWith_sorted (l : list A) : StronglySorted (notAfter cmp) (sortWith cmp l).
Proof. apply sortWith_from_sorted. constructor. Qed.

End SortFacts.

Lemma sorted_last {A : Type} (R : A -> A -> Prop) (l : list A) (d x : A) :
  (forall a, R a a) -> StronglySorted R l -> In x l -> R x (List.last l d).
Proof.
  intros Hrefl Hs. revert x. induction Hs as [| a l Hs IH Ha]; intros x Hx.
  - destruct Hx.
  - destruct l as [| b l'].
    + destruct Hx as [<- | []]. apply Hrefl.
    + change (List.last (a :: b :: l') d) with (List.last (b :: l') d).
      destruct Hx as [<- | Hx]; [| now apply IH].
      rewrite List.Forall_forall in Ha. apply Ha.
      destruct (exists_last (l := b :: l')) as (l0 & z & E); [discriminate |].
      rewrite E, last_last. apply in_or_app. right. now left.
Qed.

Lemma StronglySorted_weaken {A : Type} (R R' : A -> A -> Prop) (l : list A) :
  (forall a b, R a b -> R' a b) -> StronglySorted R l -> StronglySorted R' l.
Proof.
  intros HR. induction 1 as [| a l Hs IH Ha]; constructor; [exact IH |].
  eapply List.Forall_impl; [| exact Ha]. intros b. apply HR.
Qed.

Lemma localeCompare_le (a b : string) :
  (localeCompare a b <= 0)%Z <-> String.leb a b = true.
Proof.
  unfold localeCompare, String.leb. destruct (String.compare a b); split; intros; try easy; lia.
Qed.

Lemma leb_refl (a : string) : String.leb a a = true.
Proof. destruct (String.leb_total a a); assumption. Qed.

Lemma leb_trans (a b c : string) :
  String.leb a b = true -> String.leb b c = true -> String.leb a c = true.
Proof.
  intros H1 H2. apply Is_true_true. apply Is_true_true in H1, H2.
  exact (transitivity (R := String.le) H1 H2).
Qed.

Lemma byDate_total (a b : Entry.t) : (0 < byDate a b)%Z -> (byDate b a <= 0)%Z.
Proof.
  unfold byDate. intros H. apply localeCompare_le.
  destruct (String.leb_total (Entry.date a) (Entry.date b)) as [E | E]; [| exact E].
  apply localeCompare_le in E. lia.
Qed.

Lemma byDate_trans (a b c : Entry.t) :
  (byDate a b <= 0)%Z -> (byDate b c <= 0)%Z -> (byDate a c <= 0)%Z.
Proof.
  unfold byDate. rewrite !localeCompare_le. apply leb_trans.
Qed.

Lemma sortWith_byDate_sorted (l : list Entry.t) :
  StronglySorted dateNotAfter (sortWith byDate l).
Proof.
  pose proof (sortWith_sorted byDate byDate_total byDate_trans l) as H.
  eapply StronglySorted_weaken; [| exact H].
  intros a b Hab. apply localeCompare_le. exact Hab.
Qed.

Lemma sortWith_byDate_Permutation (l : list Entry.t) :
  Permutation l (sortWith byDate l).
Proof. exact (sortWith_Permutation byDate l). Qed.

(* ===================================================================== *)
(** * Weekly average pay *)
(* ===================================================================== *)

Lemma ofZ_sub (a b : Z) : JS.sub (ofZ a) (ofZ b) = ofZ (a - b).
Proof.
  unfold ofZ. simpl. f_equal. apply Qc_is_canon.
  unfold Qcminus, Qcplus, Qcopp. simpl this. rewrite !Qred_correct.
  unfold Z.sub. rewrite inject_Z_plus, inject_Z_opp. reflexivity.
Qed.

Lemma ofZ_max_one (n : Z) : JS.max (ofZ 1) (ofZ n) = ofZ (Z.max 1 n).
Proof.
  unfold ofZ, JS.max.
  destruct (Qclt_le_dec (Q2Qc (inject_Z 1)) (Q2Qc (inject_Z n))) as [H | H].
  - unfold Qclt in H. rewrite !Q2Qc_this_Z in H. rewrite <- Zlt_Qlt in H.
    now rewrite Z.max_r by lia.
  - unfold Qcle in H. rewrite !Q2Qc_this_Z in H. rewrite <- Zle_Qle in H.
    now rewrite Z.max_l by lia.
Qed.

Lemma week_nonzero : Q2Qc (inject_Z (1000 * 60 * 60 * 24 * 7)) <> Q2Qc 0.
Proof. intros H. apply (f_equal this) in H. discriminate H. Qed.

(** The number of weeks spanned by [k] days, as the component computes it
    from the difference of two time values. *)
Lemma weeks_of_days (k : Z) :
  JS.ceil (JS.div (ofZ (k * msPerDay)) (ofZ (1000 * 60 * 60 * 24 * 7)))
  = ofZ (Qceiling (inject_Z k / inject_Z 7)%Q).
Proof.
  unfold ofZ at 1 2. rewrite (div_Fin _ _ week_nonzero). simpl JS.ceil.
  f_equal. apply Qceiling_comp.
  unfold Qcdiv, Qcmult, Qcinv. simpl this. rewrite !Qred_correct.
  unfold msPerDay. rewrite inject_Z_mult.
  change (inject_Z (1000 * 60 * 60 * 24 * 7)) with (inject_Z 7 * inject_Z (1000 * 60 * 60 * 24))%Q.
  field. discriminate.
Qed.

Lemma sorted_head_earliest (entries : list Entry.t) (e0 : Entry.t) (first : string) :
  isEarliest first entries ->
  Entry.date (hd e0 (sortWith byDate entries)) = first.
Proof.
  intros [Hin Hall].
  pose proof (sortWith_byDate_Permutation entries) as Hp.
  pose proof (sortWith_byDate_sorted entries) as Hs.
  apply in_map_iff in Hin. destruct Hin as (e & <- & He).
  destruct (sortWith byDate entries) as [| h t] eqn:E.
  { symmetry in Hp. apply Permutation_nil in Hp. subst entries. destruct He. }
  simpl. apply String.leb_antisym.
  - apply StronglySorted_inv in Hs. destruct Hs as [_ Hh].
    assert (He' : In e (h :: t)) by (eapply Permutation_in; eassumption).
    destruct He' as [<- | He']; [apply leb_refl |].
    rewrite List.Forall_forall in Hh. now apply Hh.
  - rewrite List.Forall_forall in Hall. apply Hall.
    eapply Permutation_in; [symmetry; exact Hp | now left].
Qed.

Lemma sorted_last_latest (entries : list Entry.t) (e0 : Entry.t) (last : string) :
  isLatest last entries ->
  Entry.date (List.last (sortWith byDate entries) e0) = last.
Proof.
  intros [Hin Hall].
  pose proof (sortWith_byDate_Permutation entries) as Hp.
  pose proof (sortWith_byDate_sorted entries) as Hs.
  apply in_map_iff in Hin. destruct Hin as (e & <- & He).
  assert (He' : In e (sortWith byDate entries)) by (eapply Permutation_in; eassumption).
  apply String.leb_antisym.
  - rewrite List.Forall_forall in Hall. apply Hall.
    eapply Permutation_in; [symmetry; exact Hp |].
    destruct (sortWith byDate entries) as [| h t]; [destruct He' |].
    destruct (exists_last (l := h :: t)) as (l0 & z & E); [discriminate |].
    rewrite E, last_last. apply in_or_app. right. now left.
  - apply (sorted_last dateNotAfter _ e0 e); [| exact Hs | exact He'].
    intros a. apply leb_refl.
Qed.

(** C3. The weekly average pay of an empty entry list is 0. For entries
    whose earliest and latest dates (by the order of the character codes)
    are the calendar days [d0] and [d1], it is [totalEarnings / weeks] with
    [weeks = max(1, ceil((d1 - d0) / 7))]. *)
Theorem weekly_average (entries : list Entry.t) (wage : number)
    (first last : string) (d0 d1 : Z) :
  isEarliest first entries ->
  isLatest last entries ->
  parseDay first = Some d0 ->
  parseDay last = Some d1 ->
  weeklyAverage [] (totalEarnings [] wage) = ofZ 0
  /\ weeklyAverage entries (totalEarnings entries wage)
     = JS.div (totalEarnings entries wage)
              (ofZ (Z.max 1 (Qceiling (inject_Z (d1 - d0) / inject_Z 7)%Q))).
Proof.
  intros Hfirst Hlast Hd0 Hd1. split; [reflexivity |].
  destruct entries as [| e0 rest].
  { destruct Hfirst as [[] _]. }
  unfold weeklyAverage.
  rewrite (sorted_head_earliest _ e0 first Hfirst).
  rewrite (sorted_last_latest _ e0 last Hlast).
  unfold newDate. rewrite Hd0, Hd1.
  rewrite ofZ_sub, <- Z.mul_sub_distr_r, weeks_of_days, ofZ_max_one.
  reflexivity.
Qed.

(** The example of the specification: entries on 2024-01-01 and 2024-01-15
    with 10 hours in all at a wage of 10 span 2 weeks, and the weekly
    average is 50. *)
Lemma two_weeks_average_is_50 :
  weeklyAverage twoWeeks (totalEarnings twoWeeks (ofZ 10)) = ofZ 50.
Proof. unfold ofZ. vm_compute. f_equal. apply Qc_is_canon. reflexivity. Qed.

Lemma weekly_average_witness :
  weeklyAverage [] (totalEarnings [] (ofZ 10)) = ofZ 0
  /\ weeklyAverage twoWeeks (totalEarnings twoWeeks (ofZ 10))
     = JS.div (totalEarnings twoWeeks (ofZ 10))
              (ofZ (Z.max 1 (Qceiling (inject_Z (19737 - 19723) / inject_Z 7)%Q))).
Proof.
  apply (weekly_average twoWeeks (ofZ 10) "2024-01-01" "2024-01-15" 19723 19737).
  - split; [simpl; auto | repeat constructor].
  - split; [simpl; auto | repeat constructor].
  - reflexivity.
  - reflexivity.
Defined.

(* ===================================================================== *)
(** * Handlers *)
(* ===================================================================== *)

Lemma ToBoolean_Str (s : string) : ToBoolean (Str s) = false <-> s = EmptyString.
Proof.
  simpl. destruct (String.eqb_spec s EmptyString) as [E | E]; simpl; split; intros H; try easy.
Qed.

(** The first component validates the form before it touches the store:
    with an empty date, or hours that [Number] reads as [NaN] or as a
    negative number, [addEntry] shows an alert and the whole state is left
    as it was; otherwise the new entry joins the entries and the
    collection is in ascending order of date. *)
Theorem Tracker_addEntry_validates (uid : string) (st : State) :
  (date st = EmptyString \/ isNaN (hours st) = true \/ ltNumber (hours st) (ofZ 0) = true ->
   exists msg, Tracker.addEntry uid st = (Alert msg, st))
  /\ (date st <> EmptyString ->
      isNaN (hours st) = false ->
      ltNumber (hours st) (ofZ 0) = false ->
      let newEntry :=
        Entry.make uid (date st) (Num (ToNumber (hours st))) (Some (note st)) in
      fst (Tracker.addEntry uid st) = Silent
      /\ entries (snd (Tracker.addEntry uid st))
         = sortWith byDate (entries st ++ [newEntry])%list
      /\ Permutation (newEntry :: entries st) (entries (snd (Tracker.addEntry uid st)))
      /\ StronglySorted dateNotAfter (entries (snd (Tracker.addEntry uid st)))
      /\ wishlist (snd (Tracker.addEntry uid st)) = wishlist st).
Proof.
  split.
  - intros H. unfold Tracker.addEntry.
    destruct (ToBoolean (Str (date st))) eqn:Ed; simpl negb; cbv iota.
    2: { eexists. reflexivity. }
    destruct H as [H | [H | H]].
    + apply ToBoolean_Str in H. congruence.
    + rewrite H. simpl. eexists. reflexivity.
    + rewrite H, orb_true_r. eexists. reflexivity.
  - intros Hd Hn Hl newEntry. unfold Tracker.addEntry.
    destruct (ToBoolean (Str (date st))) eqn:Ed.
    2: { apply ToBoolean_Str in Ed. contradiction. }
    rewrite Hn, Hl. simpl.
    repeat split.
    + rewrite <- sortWith_byDate_Permutation.
      apply Permutation_cons_append.
    + apply sortWith_byDate_sorted.
Qed.

(** C6 on the UK version. [addEntry] of the UK version does not validate:
    with the date field cleared it shows nothing and stores an entry with
    an empty date, and with [-1] typed into the hours field it stores an
    entry of -1 hours; on the same form states [addEntry] of the first
    component shows its alert and leaves the state as it was. *)
Theorem UK_addEntry_does_not_validate :
  let noDate := setDate EmptyString (initialState "2024-01-01") in
  let negative := setHours (Str "-1") (initialState "2024-01-01") in
  (fst (TrackerUK.addEntry "k3x9q1a" noDate) = Silent
   /\ entries (snd (TrackerUK.addEntry "k3x9q1a" noDate))
      = [Entry.make "k3x9q1a" EmptyString (Num (ofZ 8)) (Some EmptyString)]
   /\ entries (snd (TrackerUK.addEntry "k3x9q1a" noDate)) <> entries noDate
   /\ Tracker.addEntry "k3x9q1a" noDate = (Alert "Please select a date", noDate))
  /\ (fst (TrackerUK.addEntry "k3x9q1a" negative) = Silent
      /\ entries (snd (TrackerUK.addEntry "k3x9q1a" negative))
         = [Entry.make "k3x9q1a" "2024-01-01" (Num (ofZ (-1))) (Some EmptyString)]
      /\ entries (snd (TrackerUK.addEntry "k3x9q1a" negative)) <> entries negative
      /\ Tracker.addEntry "k3x9q1a" negative
         = (Alert "Please enter a valid positive number of hours", negative)).
Proof.
  repeat split; simpl; discriminate.
Qed.

Lemma updateEntry_id (id field v : string) (e : Entry.t) :
  Entry.id (Tracker.updateEntry id field v e) = Entry.id e.
Proof.
  unfold Tracker.updateEntry.
  repeat match goal with |- context [if ?b then _ else _] => destruct b end;
    reflexivity.
Qed.

Lemma updateEntry_date (id field v : string) (e : Entry.t) :
  Entry.date (Tracker.updateEntry id field v e) = Entry.date e.
Proof.
  unfold Tracker.updateEntry.
  repeat match goal with |- context [if ?b then _ else _] => destruct b end;
    reflexivity.
Qed.

Lemma updateEntry_other (id field v : string) (e : Entry.t) :
  Entry.id e <> id -> Tracker.updateEntry id field v e = e.
Proof.
  intros H. unfold Tracker.updateEntry.
  destruct (String.eqb_spec (Entry.id e) id); [contradiction | reflexivity].
Qed.

Lemma updateEntry_other_field (id field v : string) (e : Entry.t) :
  field <> "hours" -> field <> "note" -> Tracker.updateEntry id field v e = e.
Proof.
  intros Hh Hn. unfold Tracker.updateEntry.
  destruct (String.eqb_spec field "hours"); [contradiction |].
  destruct (String.eqb_spec field "note"); [contradiction |].
  destruct (negb _); reflexivity.
Qed.

Lemma setEntries_same (f : list Entry.t -> list Entry.t) (st : State) :
  f (entries st) = entries st -> setEntries f st = st.
Proof. intros H. unfold setEntries. rewrite H. now destruct st. Qed.

(** C10. [updateEntryField(id, field, value)] keeps the length and the
    order of the collection (the identifiers and dates, place by place);
    every entry whose identifier differs from [id] is the same entry at
    the same place; and when [field] is neither [hours] nor [note] the
    state is left as it was. *)
Theorem updateEntryField_frame (id field v : string) (st : State) :
  let st' := Tracker.updateEntryField id field v st in
  List.length (entries st') = List.length (entries st)
  /\ List.map Entry.id (entries st') = List.map Entry.id (entries st)
  /\ List.map Entry.date (entries st') = List.map Entry.date (entries st)
  /\ (forall i e, nth_error (entries st) i = Some e -> Entry.id e <> id ->
      nth_error (entries st') i = Some e)
  /\ (field <> "hours" -> field <> "note" -> st' = st).
Proof.
  simpl. repeat split.
  - apply length_map.
  - rewrite List.map_map. apply map_ext. apply updateEntry_id.
  - rewrite List.map_map. apply map_ext. apply updateEntry_date.
  - intros i e Hi Hne. rewrite nth_error_map, Hi. simpl.
    now rewrite updateEntry_other.
  - intros Hh Hn. apply setEntries_same.
    rewrite <- (List.map_id (entries st)) at 2. apply map_ext.
    intros e. now apply updateEntry_other_field.
Qed.

Lemma updateEntryField_frame_witness :
  nth_error (entries (Tracker.updateEntryField "e1" "hours" "7.5" twoEntries)) 1
  = Some (Entry.make "e2" "2024-01-01" (Num (ofZ 4)) (Some EmptyString))
  /\ Tracker.updateEntryField "e1" "date" "2030-01-01" twoEntries = twoEntries.
Proof.
  split.
  - apply (updateEntryField_frame "e1" "hours" "7.5" twoEntries); [reflexivity | discriminate].
  - apply (updateEntryField_frame "e1" "date" "2030-01-01" twoEntries); discriminate.
Defined.

(** An edit of the hours of an entry changes that entry only. *)
Example updateEntryField_hours :
  List.map (fun e => numberToString (hoursNumber e))
    (entries (Tracker.updateEntryField "e1" "hours" "7.5" twoEntries))
  = ["7.5"; "4"].
Proof. reflexivity. Qed.

(* ===================================================================== *)
(** * Identifiers *)
(* ===================================================================== *)

Lemma NoDup_map_filter {A B : Type} (f : A -> B) (p : A -> bool) (l : list A) :
  List.NoDup (List.map f l) -> List.NoDup (List.map f (List.filter p l)).
Proof.
  induction l as [| x l IH]; simpl; intros H; [exact H |].
  apply List.NoDup_cons_iff in H. destruct H as [Hx Hl].
  destruct (p x); simpl; [| now apply IH].
  apply List.NoDup_cons_iff. split; [| now apply IH].
  intros Hin. apply Hx. apply in_map_iff in Hin. destruct Hin as (y & E & Hy).
  apply filter_In in Hy. apply in_map_iff. exists y. tauto.
Qed.

Lemma NoDup_snoc {B : Type} (l : list B) (x : B) :
  List.NoDup l -> ~ In x l -> List.NoDup (l ++ [x])%list.
Proof.
  intros Hl Hx. apply (Permutation_NoDup (l := x :: l)).
  - apply Permutation_cons_append.
  - now apply List.NoDup_cons_iff.
Qed.

Lemma addEntry_unique (uid : string) (st : State) :
  uniqueIds st -> ~ In uid (List.map Entry.id (entries st)) ->
  uniqueIds (snd (Tracker.addEntry uid st)).
Proof.
  intros [He Hw] Hfresh. unfold Tracker.addEntry.
  destruct (negb (ToBoolean (Str (date st)))); [now split |].
  destruct (isNaN (hours st) || ltNumber (hours st) (ofZ 0))%bool; [now split |].
  split; [| exact Hw]. simpl.
  eapply Permutation_NoDup.
  - apply Permutation_map. apply sortWith_byDate_Permutation.
  - rewrite List.map_app. simpl. now apply NoDup_snoc.
Qed.

Lemma addWishlist_unique (uid : string) (st : State) :
  uniqueIds st -> ~ In uid (List.map Item.id (wishlist st)) ->
  uniqueIds (snd (Tracker.addWishlist uid st)).
Proof.
  intros [He Hw] Hfresh. unfold Tracker.addWishlist.
  destruct (negb (ToBoolean (Str (trim (itemName st))))); [now split |].
  destruct (isNaN (itemPrice st) || ltNumber (itemPrice st) (ofZ 0))%bool; [now split |].
  split; [exact He |]. simpl.
  rewrite List.map_app. simpl. now apply NoDup_snoc.
Qed.

Lemma step_unique (st : State) (a : action) :
  uniqueIds st ->
  match a with
  | AddEntry uid => ~ In uid (List.map Entry.id (entries st))
  | AddWishlist uid => ~ In uid (List.map Item.id (wishlist st))
  | _ => True
  end ->
  uniqueIds (step st a).
Proof.
  intros Hu Hfresh. pose proof Hu as [He Hw].
  destruct a; simpl; try (split; assumption).
  - now apply addEntry_unique.
  - split; [| exact Hw]. simpl. now apply NoDup_map_filter.
  - split; [| exact Hw]. simpl.
    rewrite List.map_map.
    rewrite (map_ext _ Entry.id (updateEntry_id id field v)). exact He.
  - now apply addWishlist_unique.
  - split; [exact He |]. simpl. now apply NoDup_map_filter.
  - destruct confirmed; simpl; [| now split].
    split; simpl; constructor.
Qed.

(** C9, as amended. Along every run of mutations in which each identifier
    drawn by [uid()] is new to its collection at the time of the draw, a
    state without duplicate identifiers stays without duplicates: no two
    entries share an id and no two wishlist items share an id. Removals and
    edits never create a duplicate. *)
Theorem unique_ids_preserved (st : State) (acts : list action) :
  uniqueIds st -> freshDraws st acts -> uniqueIds (run st acts).
Proof.
  revert st. induction acts as [| a acts IH]; intros st Hu Hf; simpl; [exact Hu |].
  destruct Hf as [Ha Hrest].
  apply IH; [| exact Hrest].
  now apply step_unique.
Qed.

Lemma unique_ids_preserved_witness :
  uniqueIds
    (run (initialState "2024-01-05")
       [AddEntry "k3x9q1a"; SetNote "late shift"; AddEntry "p07dzzm";
        RemoveEntry "k3x9q1a"; SetItemName "bike"; SetItemPrice "120";
        AddWishlist "a1b2c3d"; UpdateEntryField "p07dzzm" "hours" "6"]).
Proof.
  apply unique_ids_preserved.
  - split; constructor.
  - simpl. repeat split; try exact I; intros H; simpl in H; intuition discriminate.
Defined.

(** Nothing keeps [uid()] from drawing the same identifier twice: after two
    submissions that draw the same identifier, two entries share it. *)
Lemma duplicate_ids_reachable :
  ~ uniqueIds (run (initialState "2024-01-05") [AddEntry "k3x9q1a"; AddEntry "k3x9q1a"]).
Proof.
  intros [H _]. vm_compute in H.
  apply List.NoDup_cons_iff in H. destruct H as [H _]. apply H. now left.
Qed.

(* ===================================================================== *)
(** * Monthly chart series *)
(* ===================================================================== *)

Lemma sumNumbers_snoc (l : list number) (x : number) :
  sumNumbers (l ++ [x])%list = JS.add (sumNumbers l) x.
Proof. unfold sumNumbers. now rewrite fold_left_app. Qed.

Lemma sumNumbers_finite (l : list number) :
  Forall (fun x => x <> NaN) l -> exists q, sumNumbers l = Fin q.
Proof.
  induction l as [| x l IH] using rev_ind; intros H.
  - eexists. reflexivity.
  - apply Forall_app in H. destruct H as [Hl Hx].
    destruct (IH Hl) as [q Hq]. rewrite sumNumbers_snoc, Hq.
    apply Forall_inv in Hx. destruct x as [| y]; [contradiction |].
    eexists. reflexivity.
Qed.

Lemma substring_firstChars (n : nat) (s : string) :
  String.substring 0 n s = firstChars n s.
Proof.
  revert s. induction n as [| n IH]; intros [| c r]; simpl; try reflexivity.
  now rewrite IH.
Qed.

Lemma slice7_yearMonth (s : string) : slice7 s = yearMonth s.
Proof. apply substring_firstChars. Qed.

Lemma monthGroup_snoc (k : string) (l : list Entry.t) (e : Entry.t) :
  monthGroup k (l ++ [e])%list
  = if String.eqb (monthOf e) k then (monthGroup k l ++ [e])%list else monthGroup k l.
Proof.
  unfold monthGroup. rewrite List.filter_app. simpl.
  destruct (String.eqb (monthOf e) k); [reflexivity | apply app_nil_r].
Qed.

Lemma monthEarnings_finite (k : string) (l : list Entry.t) (w : Qc) :
  Forall numericHours l -> exists q, monthEarnings k l w = Fin q.
Proof.
  intros H. apply sumNumbers_finite. rewrite List.Forall_forall.
  intros x Hx. apply in_map_iff in Hx. destruct Hx as (e & <- & He).
  apply filter_In in He. destruct He as [He _].
  rewrite List.Forall_forall in H. specialize (H e He). unfold numericHours in H.
  destruct (hoursNumber e); [contradiction | discriminate].
Qed.

(** A slot that holds a finite sum is read back as that sum by
    [map[m] || 0]. *)
Lemma slot_or_zero (q : Qc) : ToNumber (logicalOr (Num (Fin q)) zero) = Fin q.
Proof. exact (settingNumber_Fin q). Qed.

(** What the loop of [chartData] leaves in the dictionary: a slot for each
    month that has entries, holding the sum over that month. *)
Lemma chartMap_lookup (entries : list Entry.t) (w : Qc) (k : string) :
  Forall numericHours entries ->
  chartMap entries (Fin w) !! k
  = match monthGroup k entries with
    | [] => None
    | _ => Some (monthEarnings k entries w)
    end.
Proof.
  induction entries as [| e l IH] using rev_ind; intros H.
  - reflexivity.
  - apply Forall_app in H. destruct H as [Hl He].
    specialize (IH Hl).
    unfold chartMap in *. rewrite fold_left_app. simpl.
    unfold chartStep at 1. rewrite slice7_yearMonth. fold (monthOf e).
    rewrite settingNumber_Fin.
    unfold monthEarnings. rewrite monthGroup_snoc.
    destruct (String.eqb_spec (monthOf e) k) as [E | E].
    + subst k. rewrite lookup_insert_eq.
      rewrite List.map_app. simpl List.map. rewrite sumNumbers_snoc.
      destruct (monthEarnings_finite (monthOf e) l w Hl) as [q Hq].
      unfold getKey. rewrite IH.
      destruct (monthGroup (monthOf e) l) as [| g gs] eqn:Eg; simpl app; cbv iota.
      * reflexivity.
      * rewrite Hq, slot_or_zero.
        unfold monthEarnings in Hq. rewrite Eg in Hq. rewrite Hq. reflexivity.
    + rewrite lookup_insert_ne by exact E. exact IH.
Qed.


Lemma sortedKeys_In (m : gmap string number) (k : string) :
  In k (sortedKeys m) <-> is_Some (m !! k).
Proof.
  unfold sortedKeys. rewrite <- list_elem_of_In, merge_sort_Permutation.
  rewrite list_elem_of_fmap. split.
  - intros ([k' v] & -> & H). apply elem_of_map_to_list in H. now exists v.
  - intros [v H]. exists (k, v). split; [reflexivity |].
    now apply elem_of_map_to_list.
Qed.

Lemma ltb_of_leb (a b : string) : String.leb a b = true -> a <> b -> String.ltb a b = true.
Proof.
  unfold String.leb, String.ltb. destruct (String.compare a b) eqn:E; try easy.
  intros _ H. apply String.compare_eq_iff in E. contradiction.
Qed.




(** The handlers keep the hours numeric: [addEntry] and [updateEntryField]
    only store the result of [Number], so the entries of every run from a
    first run satisfy the premise of the chart series. *)
Lemma numericHours_Num (e : Entry.t) (n : number) :
  Entry.hours e = Num n -> numericHours e.
Proof.
  intros H. unfold numericHours, hoursNumber, logicalOr. rewrite H.
  destruct n as [| q]; simpl; [discriminate |].
  destruct (Qc_eq_dec q (Q2Qc 0)); discriminate.
Qed.

Lemma updateEntry_numericHours (id field v : string) (e : Entry.t) :
  numericHours e -> numericHours (Tracker.updateEntry id field v e).
Proof.
  intros H. unfold Tracker.updateEntry.
  destruct (negb (String.eqb (Entry.id e) id)); [exact H |].
  destruct (String.eqb field "hours").
  - destruct (isNaN (Num (ToNumber (Str v))) || JS.lt (ToNumber (Str v)) (ofZ 0))%bool;
      [exact H | now apply (numericHours_Num _ (ToNumber (Str v)))].
  - destruct (String.eqb field "note"); exact H.
Qed.

Lemma step_keeps_numericHours (st : State) (a : action) :
  Forall numericHours (entries st) -> Forall numericHours (entries (step st a)).
Proof.
  intros H. destruct a; simpl; try exact H.
  - unfold Tracker.addEntry.
    destruct (negb (ToBoolean (Str (date st)))); [exact H |].
    destruct (isNaN (hours st) || ltNumber (hours st) (ofZ 0))%bool; [exact H |].
    simpl. eapply Permutation_Forall; [apply sortWith_byDate_Permutation |].
    apply Forall_app. split; [exact H |].
    constructor; [| constructor]. now apply (numericHours_Num _ (ToNumber (hours st))).
  - rewrite List.Forall_forall in *. intros e He.
    apply filter_In in He. now apply H.
  - rewrite List.Forall_forall in *. intros e He.
    apply in_map_iff in He. destruct He as (e' & <- & He').
    apply updateEntry_numericHours. now apply H.
  - unfold Tracker.addWishlist.
    destruct (negb (ToBoolean (Str (trim (itemName st))))); [exact H |].
    destruct (isNaN (itemPrice st) || ltNumber (itemPrice st) (ofZ 0))%bool; exact H.
  - destruct confirmed; simpl; [constructor | exact H].
Qed.

Lemma run_keeps_numericHours (st : State) (acts : list action) :
  Forall numericHours (entries st) -> Forall numericHours (entries (run st acts)).
Proof.
  revert st. induction acts as [| a acts IH]; intros st H; simpl; [exact H |].
  apply IH. now apply step_keeps_numericHours.
Qed.

(** The example of the specification: 2 h and 3 h in January 2024 and 1 h
    in February at a wage of 10 give 50 for 2024-01 and 10 for 2024-02. *)
Lemma three_entries_chart :
  chartData threeEntries (ofZ 10)
  = [ {| month := "2024-01"; earnings := ofZ 50 |};
      {| month := "2024-02"; earnings := ofZ 10 |} ].
Proof.
  vm_compute.
  repeat (apply (f_equal2 cons);
          [apply (f_equal (Build_ChartPoint _)), (f_equal Fin), Qc_is_canon;
           reflexivity |]).
  reflexivity.
Qed.

(** Why the hours have to be read as numbers: a month's slot that holds
    [NaN] is falsy, so the next entry of the month restarts the sum. After
    an entry whose hours are the string [abc], 3 h at a wage of 10 give 30
    for the month. *)
Example chart_restarts_after_NaN :
  chartData
    [ Entry.make "e1" "2024-01-05" (Str "abc") None;
      Entry.make "e2" "2024-01-20" (Num (ofZ 3)) None ] (ofZ 10)
  = [ {| month := "2024-01"; earnings := ofZ 30 |} ].
Proof.
  vm_compute.
  apply (f_equal2 cons);
    [apply (f_equal (Build_ChartPoint _)), (f_equal Fin), Qc_is_canon | ];
    reflexivity.
Qed.


(* ===================================================================== *)
(** * Printed numbers read back *)
(* ===================================================================== *)

Lemma digit_cases (t : Z) :
  (0 <= t <= 9)%Z ->
  t = 0 \/ t = 1 \/ t = 2 \/ t = 3 \/ t = 4 \/ t = 5 \/ t = 6 \/ t = 7 \/ t = 8 \/ t = 9.
Proof. lia. Qed.

Lemma digitChar_facts (t : Z) :
  (0 <= t <= 9)%Z ->
  isDigit (digitChar t) = true /\ digitValue (digitChar t) = t
  /\ numberChar (digitChar t) = true.
Proof.
  intros H. apply digit_cases in H.
  repeat (destruct H as [-> | H]; [repeat split |]); subst; repeat split.
Qed.

Lemma numberChar_plain (c : ascii) :
  numberChar c = true ->
  Ascii.eqb c dquote = false /\ Ascii.eqb c comma = false
  /\ Ascii.eqb c newline = false /\ isWhite c = false.
Proof.
  unfold numberChar, isDigit, isWhite.
  destruct (Ascii.eqb_spec c dquote) as [-> | _]; [discriminate |].
  destruct (Ascii.eqb_spec c comma) as [-> | _]; [discriminate |].
  destruct (Ascii.eqb_spec c newline) as [-> | _]; [discriminate |].
  destruct (Ascii.eqb_spec c "-") as [-> | _]; [now repeat split |].
  destruct (Ascii.eqb_spec c ".") as [-> | _]; [now repeat split |].
  destruct (Ascii.eqb_spec c "N") as [-> | _]; [now repeat split |].
  destruct (Ascii.eqb_spec c "a") as [-> | _]; [now repeat split |].
  destruct (Ascii.eqb_spec c "e") as [-> | _]; [now repeat split |].
  destruct (Ascii.eqb_spec c "+") as [-> | _]; [now repeat split |].
  rewrite !orb_false_r. intros H. repeat split.
  apply andb_true_iff in H. destruct H as [H1 H2].
  apply Z.leb_le in H1. apply Z.leb_le in H2.
  apply orb_false_iff. split; [apply orb_false_iff; split |].
  - apply andb_false_iff. right. apply Z.leb_gt. lia.
  - apply Z.eqb_neq. lia.
  - apply Z.eqb_neq. lia.
Qed.

Lemma allChars_app (ok : ascii -> bool) (a b : string) :
  allChars ok (a ++ b) = allChars ok a && allChars ok b.
Proof.
  induction a as [| c a IH]; simpl; [reflexivity |].
  now rewrite IH, andb_assoc.
Qed.

Lemma numberChars_plainText (s : string) :
  allChars numberChar s = true -> plainText s = true.
Proof.
  induction s as [| c s IH]; simpl; [reflexivity |].
  intros H. apply andb_true_iff in H. destruct H as [Hc Hs].
  destruct (numberChar_plain c Hc) as (-> & -> & -> & _). simpl. now apply IH.
Qed.

Lemma trimStart_numberChars (s : string) :
  allChars numberChar s = true -> trimStart s = s.
Proof.
  destruct s as [| c s]; simpl; [reflexivity |].
  intros H. apply andb_true_iff in H. destruct H as [Hc _].
  destruct (numberChar_plain c Hc) as (_ & _ & _ & ->). reflexivity.
Qed.

Lemma trimEnd_numberChars (s : string) :
  allChars numberChar s = true -> trimEnd s = s.
Proof.
  induction s as [| c s IH]; simpl; [reflexivity |].
  intros H. apply andb_true_iff in H. destruct H as [Hc Hs].
  rewrite (IH Hs).
  destruct (numberChar_plain c Hc) as (_ & _ & _ & ->).
  destruct s; reflexivity.
Qed.

Lemma digitsOf_app (fuel : nat) (z : Z) (t1 t2 : string) :
  (digitsOf fuel z t1 ++ t2)%string = digitsOf fuel z (t1 ++ t2).
Proof.
  revert z t1. induction fuel as [| f IH]; intros z t1; simpl; [reflexivity |].
  destruct (z / 10 =? 0)%Z; [reflexivity |]. now rewrite IH.
Qed.

Lemma digitsOf_chars (fuel : nat) (z : Z) (tail : string) :
  allChars numberChar tail = true ->
  allChars numberChar (digitsOf fuel z tail) = true.
Proof.
  revert z tail. induction fuel as [| f IH]; intros z tail Ht; simpl; [exact Ht |].
  assert (Hc : numberChar (digitChar (z mod 10)) = true).
  { apply digitChar_facts. pose proof (Z.mod_pos_bound z 10 ltac:(lia)). lia. }
  destruct (z / 10 =? 0)%Z.
  - simpl. now rewrite Hc.
  - apply IH. simpl. now rewrite Hc.
Qed.

(** The printed natural number is not empty and starts with a digit. *)
Lemma digitsOf_head (fuel : nat) (z : Z) (tail : string) :
  exists c s, digitsOf (S fuel) z tail = String c s /\ isDigit c = true.
Proof.
  revert z tail. induction fuel as [| f IH]; intros z tail.
  - simpl. exists (digitChar (z mod 10)), tail.
    split; [now destruct (z / 10 =? 0)%Z |].
    apply digitChar_facts. pose proof (Z.mod_pos_bound z 10 ltac:(lia)). lia.
  - change (digitsOf (S (S f)) z tail)
      with (if (z / 10 =? 0)%Z then String (digitChar (z mod 10)) tail
            else digitsOf (S f) (z / 10) (String (digitChar (z mod 10)) tail)).
    destruct (z / 10 =? 0)%Z; [| apply IH].
    eexists _, _. split; [reflexivity |].
    apply digitChar_facts. pose proof (Z.mod_pos_bound z 10 ltac:(lia)). lia.
Qed.

(** Reading the digits of [z] adds them on the right of what was read. *)
Lemma readDigits_digitsOf (fuel : nat) (z : Z) (tail : string) :
  (0 <= z < 2 ^ Z.of_nat (S fuel))%Z ->
  exists k, (0 <= k)%Z /\ forall acc n,
    readDigits (digitsOf (S fuel) z tail) acc n
    = readDigits tail (acc * 10 ^ (k + 1) + z) (n + (k + 1)).
Proof.
  revert z tail. induction fuel as [| f IH]; intros z tail Hz;
    pose proof (Z.mod_pos_bound z 10 ltac:(lia)) as Hm;
    destruct (digitChar_facts (z mod 10) ltac:(lia)) as (Hd & Hv & _);
    pose proof (Z.div_mod z 10 ltac:(lia)) as Hdm.
  - assert (E : z / 10 = 0) by (apply Z.div_small; simpl in Hz; lia).
    simpl digitsOf. rewrite E. simpl.
    exists 0. split; [lia |]. intros acc n. rewrite Hd, Hv. f_equal; lia.
  - change (digitsOf (S (S f)) z tail)
      with (if (z / 10 =? 0)%Z then String (digitChar (z mod 10)) tail
            else digitsOf (S f) (z / 10) (String (digitChar (z mod 10)) tail)).
    destruct (z / 10 =? 0)%Z eqn:E.
    + apply Z.eqb_eq in E. exists 0. split; [lia |]. intros acc n.
      simpl readDigits. rewrite Hd, Hv. f_equal; lia.
    + apply Z.eqb_neq in E.
      assert (Hz' : (0 <= z / 10 < 2 ^ Z.of_nat (S f))%Z).
      { split; [apply Z.div_pos; lia |].
        apply Z.div_lt_upper_bound; [lia |].
        rewrite (Nat2Z.inj_succ (S f)), Z.pow_succ_r in Hz by lia. lia. }
      destruct (IH (z / 10) (String (digitChar (z mod 10)) tail) Hz') as (k & Hk & Hread).
      exists (k + 1). split; [lia |]. intros acc n.
      rewrite Hread. simpl readDigits. rewrite Hd, Hv.
      f_equal; [| lia].
      rewrite (Z.pow_add_r 10 (k + 1) 1) by lia. lia.
Qed.

Lemma naturalString_fuel (z : Z) :
  (0 <= z)%Z -> (0 <= z < 2 ^ Z.of_nat (S (Z.to_nat (Z.log2 z))))%Z.
Proof.
  intros Hz. split; [exact Hz |].
  rewrite Nat2Z.inj_succ, Z2Nat.id by apply Z.log2_nonneg.
  destruct (Z.eq_dec z 0) as [-> | Hne]; [reflexivity |].
  apply Z.log2_spec. lia.
Qed.

#[local] Arguments String.append : simpl nomatch.

Lemma fractionDigits_chars (fuel : nat) (r d : Z) :
  (0 <= r < d)%Z -> allChars numberChar (fractionDigits fuel r d) = true.
Proof.
  revert r. induction fuel as [| f IH]; intros r Hr; simpl; [reflexivity |].
  destruct (r =? 0)%Z; [reflexivity |]. simpl.
  rewrite IH by (apply Z.mod_pos_bound; lia).
  rewrite andb_true_r. apply digitChar_facts. split.
  - apply Z.div_pos; lia.
  - assert (10 * r / d < 10)%Z by (apply Z.div_lt_upper_bound; lia). lia.
Qed.

Lemma string_app_assoc (a b c : string) : ((a ++ b) ++ c = a ++ (b ++ c))%string.
Proof. induction a as [| x a IH]; simpl; [reflexivity | now rewrite IH]. Qed.

Lemma string_app_nil_r (a : string) : (a ++ EmptyString = a)%string.
Proof. induction a as [| x a IH]; simpl; [reflexivity | now rewrite IH]. Qed.

Lemma append_empty_l (s : string) : (EmptyString ++ s)%string = s.
Proof. reflexivity. Qed.

Lemma append_cons_l (c : ascii) (s t : string) :
  (String c s ++ t)%string = String c (s ++ t).
Proof. reflexivity. Qed.

(** Reading the decimals of [r / d] in front of a text [T] that starts with
    no digit: [fp] over [10 ^ k] is [r / d] on top of what was read. *)
Lemma readDigits_fraction (fuel : nat) (d r acc n : Z) (T : string) :
  (0 <= r < d)%Z ->
  terminates fuel r d = true ->
  (forall acc' n', readDigits T acc' n' = (acc', n', T)) ->
  exists k fp, (0 <= k)%Z
    /\ readDigits (fractionDigits fuel r d ++ T) acc n = (fp, n + k, T)
    /\ (fp * d = (acc * d + r) * 10 ^ k)%Z.
Proof.
  intros Hr Ht HT. revert r acc n Hr Ht.
  induction fuel as [| f IH]; intros r acc n Hr Ht; simpl in Ht |- *.
  - apply Z.eqb_eq in Ht. subst r. exists 0, acc. rewrite ?append_empty_l, HT.
    repeat split; [lia | f_equal; f_equal; lia | lia].
  - destruct (r =? 0)%Z eqn:E.
    + apply Z.eqb_eq in E. subst r. exists 0, acc. rewrite ?append_empty_l, HT.
      repeat split; [lia | f_equal; f_equal; lia | lia].
    + simpl in Ht. apply Z.eqb_neq in E.
      assert (Ht9 : (0 <= 10 * r / d <= 9)%Z).
      { split; [apply Z.div_pos; lia |].
        assert (10 * r / d < 10)%Z by (apply Z.div_lt_upper_bound; lia). lia. }
      destruct (digitChar_facts _ Ht9) as (Hd & Hv & _).
      rewrite ?append_cons_l. simpl readDigits. rewrite Hd, Hv.
      destruct (IH ((10 * r) mod d) (10 * acc + 10 * r / d) (n + 1)
                  ltac:(apply Z.mod_pos_bound; lia) Ht) as (k & fp & Hk & Hread & Hfp).
      exists (k + 1), fp. repeat split; [lia | | ].
      * rewrite Hread. f_equal. f_equal. lia.
      * rewrite Hfp. pose proof (Z.div_mod (10 * r) d ltac:(lia)) as Hdm.
        rewrite (Z.pow_add_r 10 k 1) by lia. nia.
Qed.

Lemma readSign_digit (c : ascii) (s : string) :
  isDigit c = true -> readSign (String c s) = (1, String c s).
Proof.
  destruct c as [[] [] [] [] [] [] [] []]; intros H; try discriminate H; reflexivity.
Qed.

(** A text that does not start with a point has no decimals to read. *)
Lemma no_fraction (s : string) :
  (forall r, s <> String "."%char r) ->
  match s with
  | String "."%char r => readDigits r 0 0
  | _ => (0, 0, s)
  end = (0, 0, s).
Proof.
  intros H. destruct s as [| c r]; [reflexivity |].
  destruct c as [[] [] [] [] [] [] [] []]; try reflexivity.
  exfalso. exact (H r eq_refl).
Qed.

Lemma Q_decimal_value (ip fp T a d r : Q) :
  (~ T == 0 -> ~ d == 0 ->
   fp * d == r * T ->
   a == ip * d + r ->
   ip + fp / T == a / d)%Q.
Proof.
  intros HT Hd Hfp Ha. rewrite Ha.
  assert (Hfd : (fp / T == r / d)%Q).
  { apply (Qmult_inj_r _ _ (d * T)%Q).
    - intros H. apply Qmult_integral in H. tauto.
    - transitivity (fp * d)%Q; [field; exact HT |].
      rewrite Hfp. field. exact Hd. }
  rewrite Hfd. field. exact Hd.
Qed.

(** The long division of [r] by [d] ends within [f] digits exactly when
    [d] divides [r * 10 ^ f]. *)
Lemma terminates_divide (f : nat) (r d : Z) :
  (0 <= r < d)%Z ->
  terminates f r d = true <-> (d | r * 10 ^ Z.of_nat f)%Z.
Proof.
  revert r. induction f as [| f IH]; intros r Hr.
  - simpl. rewrite Z.mul_1_r, Z.eqb_eq. split.
    + intros ->. apply Z.divide_0_r.
    + intros H. destruct (Z.eq_dec r 0) as [E | E]; [exact E |].
      pose proof (Z.divide_pos_le d r ltac:(lia) H). lia.
  - change (terminates (S f) r d)
      with ((r =? 0)%Z || terminates f ((10 * r) mod d) d)%bool.
    rewrite Nat2Z.inj_succ, Z.pow_succ_r by lia.
    pose proof (Z.div_mod (10 * r) d ltac:(lia)) as Hdm.
    assert (Hm : (0 <= (10 * r) mod d < d)%Z) by (apply Z.mod_pos_bound; lia).
    rewrite orb_true_iff, Z.eqb_eq, (IH _ Hm). split.
    + intros [-> | [c Hc]]; [exists 0; lia |].
      exists (10 * r / d * 10 ^ Z.of_nat f + c). nia.
    + intros [c Hc]. right.
      exists (c - 10 * r / d * 10 ^ Z.of_nat f). nia.
Qed.

Lemma terminates_mod (f : nat) (a d : Z) :
  (0 < d)%Z ->
  terminates f (a mod d) d = true <-> (d | a * 10 ^ Z.of_nat f)%Z.
Proof.
  intros Hd. rewrite (terminates_divide f _ d (Z.mod_pos_bound a d Hd)).
  pose proof (Z.div_mod a d ltac:(lia)) as Hdm. split.
  - intros [c Hc]. exists (a / d * 10 ^ Z.of_nat f + c). nia.
  - intros [c Hc]. exists (c - a / d * 10 ^ Z.of_nat f). nia.
Qed.

Lemma exponentOf_nonneg (fuel : nat) (z : Z) : (0 <= exponentOf fuel z)%Z.
Proof.
  revert z. induction fuel as [| f IH]; intros z; simpl; [lia |].
  destruct (z <? 10)%Z; [lia |]. specialize (IH (z / 10)). lia.
Qed.

Lemma smallExponent_nonneg (fuel : nat) (a d : Z) : (0 <= smallExponent fuel a d)%Z.
Proof.
  revert a. induction fuel as [| f IH]; intros a; simpl; [lia |].
  destruct (d <=? a)%Z; [lia |]. specialize (IH (10 * a)). lia.
Qed.

Lemma naturalString_chars (z : Z) : allChars numberChar (naturalString z) = true.
Proof. apply digitsOf_chars. reflexivity. Qed.

Lemma positional_chars (fuel : nat) (a d : Z) :
  (0 < d)%Z -> allChars numberChar (positional fuel a d) = true.
Proof.
  intros Hd. unfold positional. rewrite allChars_app, naturalString_chars.
  destruct (a mod d =? 0)%Z; [reflexivity |].
  simpl. apply fractionDigits_chars. now apply Z.mod_pos_bound.
Qed.

Lemma numberToString_chars (n : number) :
  allChars numberChar (numberToString n) = true.
Proof.
  destruct n as [| q]; [reflexivity |]. unfold numberToString.
  set (p := Qnum q). set (d := Zpos (Qden q)). set (a := Z.abs p).
  assert (Hs : allChars numberChar (if (p <? 0)%Z then "-" else EmptyString) = true)
    by now destruct (p <? 0)%Z.
  destruct (10 ^ 21 * d <=? a)%Z.
  - pose proof (exponentOf_nonneg (S (Z.to_nat (Z.log2 (a / d)))) (a / d)) as Hk.
    rewrite !allChars_app, Hs, naturalString_chars, positional_chars; [reflexivity |].
    apply Z.mul_pos_pos; [reflexivity | now apply Z.pow_pos_nonneg].
  - destruct ((0 <? a) && (a * 10 ^ 6 <? d))%bool%Z.
    + rewrite !allChars_app, Hs, naturalString_chars, positional_chars; reflexivity.
    + rewrite !allChars_app, Hs, positional_chars; reflexivity.
Qed.

(** Reading a signed number in positional notation that is followed by a
    text [T] holding an exponent part (or nothing). *)
Lemma read_positional (fuel : nat) (a d ex : Z) (neg : bool) (T : string) :
  (0 <= a)%Z -> (0 < d)%Z ->
  terminates fuel (a mod d) d = true ->
  (forall acc n, readDigits T acc n = (acc, n, T)) ->
  (forall r, T <> String "."%char r) ->
  readExponent T = Some (ex, EmptyString) ->
  exists v : Q,
    readDecimal ((if neg then "-" else EmptyString) ++ positional fuel a d ++ T)
    = Some (Q2Qc v)
    /\ (v == inject_Z (if neg then -1 else 1) * (inject_Z a / inject_Z d) * 10 ^ ex)%Q.
Proof.
  intros Ha Hd Hterm HT Hpoint Hex.
  pose proof (Z.mod_pos_bound a d Hd) as Hr.
  pose proof (Z.div_mod a d ltac:(lia)) as Hdm.
  assert (Hip : (0 <= a / d)%Z) by (apply Z.div_pos; lia).
  unfold positional.
  set (fr := if (a mod d =? 0)%Z then EmptyString
             else ("." ++ fractionDigits fuel (a mod d) d)%string).
  rewrite string_app_assoc.
  set (tl := (fr ++ T)%string).
  unfold naturalString. rewrite digitsOf_app, append_empty_l.
  destruct (readDigits_digitsOf _ (a / d) tl (naturalString_fuel _ Hip))
    as (k & Hk & Hread).
  destruct (digitsOf_head (Z.to_nat (Z.log2 (a / d))) (a / d) tl) as (c & s' & Ehead & Hc).
  set (sg := if neg then (-1)%Z else 1%Z).
  assert (Hsign : readSign ((if neg then "-" else EmptyString)
                              ++ digitsOf (S (Z.to_nat (Z.log2 (a / d)))) (a / d) tl)
                  = (sg, digitsOf (S (Z.to_nat (Z.log2 (a / d)))) (a / d) tl)).
  { unfold sg. destruct neg; [reflexivity |].
    rewrite append_empty_l, Ehead. now apply readSign_digit. }
  unfold readDecimal. rewrite Hsign, Hread.
  replace (0 * 10 ^ (k + 1) + a / d)%Z with (a / d)%Z by lia.
  assert (Hval : forall fp nf, (0 <= nf)%Z -> (fp * d = (a mod d) * 10 ^ nf)%Z ->
            (inject_Z sg * (inject_Z (a / d) + inject_Z fp / 10 ^ nf) * 10 ^ ex
             == inject_Z sg * (inject_Z a / inject_Z d) * 10 ^ ex)%Q).
  { intros fp nf Hnf Hfp.
    rewrite (Q_decimal_value (inject_Z (a / d)) (inject_Z fp) (10 ^ nf)%Q
               (inject_Z a) (inject_Z d) (inject_Z (a mod d))); [reflexivity | | | |].
    - apply Qpower_not_0. discriminate.
    - change 0%Q with (inject_Z 0). rewrite inject_Z_injective. lia.
    - change 10%Q with (inject_Z 10). rewrite <- Zpower_Qpower by exact Hnf.
      rewrite <- !inject_Z_mult. now rewrite Hfp.
    - rewrite <- inject_Z_mult, <- inject_Z_plus. apply inject_Z_injective. lia. }
  unfold tl, fr. destruct (a mod d =? 0)%Z eqn:E.
  - apply Z.eqb_eq in E. rewrite append_empty_l, HT. cbv beta iota.
    rewrite (no_fraction T Hpoint). cbv beta iota. rewrite Hex.
    replace (0 <? 0 + (k + 1) + 0)%Z with true by (symmetry; apply Z.ltb_lt; lia).
    eexists. split; [reflexivity |].
    apply (Hval 0%Z 0%Z); [lia | rewrite E; lia].
  - destruct (readDigits_fraction fuel d (a mod d) 0 0 T Hr Hterm HT)
      as (k2 & fp & Hk2 & Hfrac & Hfp).
    rewrite append_cons_l, append_empty_l, append_cons_l.
    change (readDigits (String "." ?x) ?u ?v) with (u, v, String "."%char x).
    cbv beta iota. rewrite Hfrac. cbv beta iota. rewrite Hex.
    replace (0 <? 0 + (k + 1) + (0 + k2))%Z with true by (symmetry; apply Z.ltb_lt; lia).
    eexists. split; [reflexivity |].
    apply (Hval fp (0 + k2)%Z); [lia |].
    rewrite Hfp. f_equal; lia.
Qed.

(** The exponent part that [numberToString] writes is read back. *)
Lemma read_exponent_part (k : Z) (neg : bool) :
  (0 <= k)%Z ->
  readExponent (String "e" ((if neg then "-" else "+") ++ naturalString k))
  = Some ((if neg then -1 else 1) * k, EmptyString).
Proof.
  intros Hk. unfold naturalString.
  destruct (readDigits_digitsOf _ k EmptyString (naturalString_fuel _ Hk))
    as (j & Hj & Hread).
  unfold readExponent. simpl orb. cbv iota.
  assert (Hs : readSign ((if neg then "-" else "+")
                           ++ digitsOf (S (Z.to_nat (Z.log2 k))) k EmptyString)
               = (if neg then -1 else 1, digitsOf (S (Z.to_nat (Z.log2 k))) k EmptyString))
    by now destruct neg.
  rewrite Hs, Hread. simpl readDigits. cbv beta iota.
  replace (0 <? 0 + (j + 1))%Z with true by (symmetry; apply Z.ltb_lt; lia).
  replace (0 * 10 ^ (j + 1) + k)%Z with k by lia. reflexivity.
Qed.

Lemma sign_value (p : Z) :
  ((if (p <? 0)%Z then -1 else 1) * Z.abs p = p)%Z.
Proof. destruct (Z.ltb_spec p 0); lia. Qed.

Lemma readDecimal_printed (q : Qc) :
  decimalNumber (Fin q) -> readDecimal (numberToString (Fin q)) = Some q.
Proof.
  unfold decimalNumber, numberToString.
  set (p := Qnum q). set (d := Zpos (Qden q)). set (a := Z.abs p).
  intros Hterm.
  assert (Hd : (0 < d)%Z) by reflexivity.
  assert (Ha : (0 <= a)%Z) by apply Z.abs_nonneg.
  assert (Hq : (q == inject_Z p / inject_Z d)%Q).
  { destruct q as [[qn qd] Hcanon]. apply Qmake_Qdiv. }
  assert (Hdq : ~ (inject_Z d == 0)%Q).
  { change 0%Q with (inject_Z 0). rewrite inject_Z_injective. lia. }
  apply (terminates_mod 20 a d Hd) in Hterm.
  assert (Hp : (inject_Z p == inject_Z (if (p <? 0)%Z then -1 else 1) * inject_Z a)%Q).
  { rewrite <- inject_Z_mult. apply inject_Z_injective. unfold a. now rewrite sign_value. }
  assert (Hfin : forall v, (v == q)%Q -> Some (Q2Qc v) = Some q).
  { intros v Hv. f_equal. apply Qc_is_canon. simpl this. now rewrite Qred_correct. }
  destruct (10 ^ 21 * d <=? a)%Z.
  - set (k := exponentOf (S (Z.to_nat (Z.log2 (a / d)))) (a / d)).
    assert (Hk : (0 <= k)%Z) by apply exponentOf_nonneg.
    assert (Hpow : (0 < 10 ^ k)%Z) by now apply Z.pow_pos_nonneg.
    destruct (read_positional (20 + Z.to_nat k) a (d * 10 ^ k) (1 * k) (p <? 0)%Z
                (String "e" ("+" ++ naturalString k)))
      as (v & Hread & Hv).
    + exact Ha.
    + now apply Z.mul_pos_pos.
    + apply terminates_mod; [now apply Z.mul_pos_pos |].
      rewrite Nat2Z.inj_add, Z2Nat.id, Z.pow_add_r by lia.
      replace (a * (10 ^ Z.of_nat 20 * 10 ^ k))%Z with (a * 10 ^ Z.of_nat 20 * 10 ^ k)%Z
        by ring.
      apply Z.mul_divide_mono_r. exact Hterm.
    + reflexivity.
    + discriminate.
    + exact (read_exponent_part k false Hk).
    + change ("e+" ++ naturalString k)%string
        with (String "e" ("+" ++ naturalString k)).
      rewrite Hread. apply Hfin. rewrite Hv, Hq, Hp.
      rewrite Z.mul_1_l, inject_Z_mult, (Zpower_Qpower 10 k Hk).
      change (inject_Z 10) with 10%Q.
      field. repeat split; first [exact Hdq | apply Qpower_not_0; discriminate].
  - destruct ((0 <? a) && (a * 10 ^ 6 <? d))%bool%Z.
    + set (k := smallExponent (S (Z.to_nat (Z.log2 d))) a d).
      assert (Hk : (0 <= k)%Z) by apply smallExponent_nonneg.
      assert (Hpow : (0 < 10 ^ k)%Z) by now apply Z.pow_pos_nonneg.
      destruct (read_positional 20 (a * 10 ^ k) d (-1 * k) (p <? 0)%Z
                  (String "e" ("-" ++ naturalString k)))
        as (v & Hread & Hv).
      * apply Z.mul_nonneg_nonneg; lia.
      * exact Hd.
      * apply terminates_mod; [exact Hd |].
        replace (a * 10 ^ k * 10 ^ Z.of_nat 20)%Z with (a * 10 ^ Z.of_nat 20 * 10 ^ k)%Z
          by ring.
        now apply Z.divide_mul_l.
      * reflexivity.
      * discriminate.
      * exact (read_exponent_part k true Hk).
      * change ("e-" ++ naturalString k)%string
          with (String "e" ("-" ++ naturalString k)).
        rewrite Hread. apply Hfin. rewrite Hv, Hq, Hp.
        replace (-1 * k)%Z with (- k)%Z by lia.
        rewrite Qpower_opp, inject_Z_mult, (Zpower_Qpower 10 k Hk).
        change (inject_Z 10) with 10%Q.
        field. repeat split; first [exact Hdq | apply Qpower_not_0; discriminate].
    + destruct (read_positional 20 a d 0 (p <? 0)%Z EmptyString)
        as (v & Hread & Hv); try reflexivity; try assumption.
      * now apply terminates_mod.
      * discriminate.
      * rewrite string_app_nil_r in Hread. rewrite Hread. apply Hfin.
        rewrite Hv, Hq, Hp. change (10 ^ 0)%Q with 1%Q. field. exact Hdq.
Qed.

(** Reading a printed decimal number gives the number back. *)
Lemma number_text_round_trip (n : number) :
  decimalNumber n -> StringToNumber (numberToString n) = n.
Proof.
  intros Hn. destruct n as [| q]; [reflexivity |].
  unfold StringToNumber, trim.
  pose proof (numberToString_chars (Fin q)) as Hc.
  rewrite (trimStart_numberChars _ Hc), (trimEnd_numberChars _ Hc).
  pose proof (readDecimal_printed q Hn) as Hread.
  destruct (numberToString (Fin q)) as [| c s] eqn:E.
  - discriminate Hread.
  - now rewrite Hread.
Qed.


(* ===================================================================== *)
(** * CSV export and its round trip *)
(* ===================================================================== *)

Lemma plainText_cons (c : ascii) (f : string) :
  plainText (String c f) = true ->
  Ascii.eqb c dquote = false /\ Ascii.eqb c comma = false
  /\ Ascii.eqb c newline = false /\ plainText f = true.
Proof.
  simpl. rewrite !andb_true_iff, !negb_true_iff. tauto.
Qed.

(** The reader takes a plain text into the unquoted field it is reading. *)
Lemma read_plain (f rest acc : string) (row : list string) (rows : list (list string)) :
  plainText f = true ->
  readCSV (f ++ rest) Unquoted acc row rows = readCSV rest Unquoted (acc ++ f) row rows.
Proof.
  revert acc. induction f as [| c f IH]; intros acc Hf.
  - simpl. now rewrite string_app_nil_r.
  - apply plainText_cons in Hf. destruct Hf as (Hq & Hc & Hn & Hf).
    simpl. rewrite Hq, Hc, Hn. rewrite (IH _ Hf).
    now rewrite string_app_assoc.
Qed.

(** A plain field up to its comma. *)
Lemma read_field_comma (f rest : string) (row : list string) (rows : list (list string)) :
  plainText f = true ->
  readCSV (f ++ String comma rest) FieldStart EmptyString row rows
  = readCSV rest FieldStart EmptyString (row ++ [f])%list rows.
Proof.
  intros Hf. destruct f as [| c f].
  - reflexivity.
  - apply plainText_cons in Hf. destruct Hf as (Hq & Hc & Hn & Hf).
    simpl. rewrite Hq, Hc, Hn. rewrite (read_plain _ _ _ _ _ Hf).
    reflexivity.
Qed.

(** Inside the quotes the reader takes the escaped note back to the note. *)
Lemma read_quoted (n rest acc : string) (row : list string) (rows : list (list string)) :
  readCSV (escapeQuotes n ++ rest) Quoted acc row rows
  = readCSV rest Quoted (acc ++ n) row rows.
Proof.
  revert acc. induction n as [| c n IH]; intros acc.
  - simpl. now rewrite string_app_nil_r.
  - simpl. destruct (Ascii.eqb c dquote) eqn:E.
    + apply Ascii.eqb_eq in E. subst c. simpl.
      rewrite IH. now rewrite string_app_assoc.
    + simpl. rewrite E, IH. now rewrite string_app_assoc.
Qed.

(** The row of an entry, read from the start of a record: the reader
    stands after the closing quote with the three fields of the entry. *)
Lemma read_row (e : Entry.t) (rest : string) (rows : list (list string)) :
  plainText (Entry.date e) = true ->
  plainText (ToString (Entry.hours e)) = true ->
  readCSV (csvRow e ++ rest) FieldStart EmptyString [] rows
  = readCSV rest QuoteSeen (noteText e)
      [Entry.date e; ToString (Entry.hours e)] rows.
Proof.
  intros Hd Hh. unfold csvRow.
  rewrite string_app_assoc. simpl.
  rewrite (read_field_comma _ _ _ _ Hd).
  rewrite string_app_assoc. simpl.
  rewrite (read_field_comma _ _ _ _ Hh).
  simpl. rewrite string_app_assoc, read_quoted. reflexivity.
Qed.

Lemma exportable_fields (e : Entry.t) :
  exportable e ->
  plainText (Entry.date e) = true
  /\ plainText (ToString (Entry.hours e)) = true
  /\ Num (StringToNumber (ToString (Entry.hours e))) = Entry.hours e.
Proof.
  intros [Hd Hh]. split; [exact Hd |].
  destruct (Entry.hours e) as [| | b | n | s]; try contradiction.
  split.
  - apply numberChars_plainText, numberToString_chars.
  - simpl ToString. now rewrite number_text_round_trip.
Qed.

Lemma concat_cons2 (sep x y : string) (l : list string) :
  String.concat sep (x :: y :: l) = (x ++ sep ++ String.concat sep (y :: l))%string.
Proof. reflexivity. Qed.

Lemma read_rows (e : Entry.t) (es : list Entry.t) (rows : list (list string)) :
  Forall exportable (e :: es) ->
  readCSV (String.concat (String newline EmptyString) (List.map csvRow (e :: es)))
          FieldStart EmptyString [] rows
  = Some (rows ++ List.map rowFields (e :: es))%list.
Proof.
  revert e rows. induction es as [| e' es IH]; intros e rows H.
  - apply Forall_inv in H. apply exportable_fields in H. destruct H as (Hd & Hh & _).
    simpl List.map. simpl String.concat.
    rewrite <- (string_app_nil_r (csvRow e)).
    rewrite (read_row _ _ _ Hd Hh). reflexivity.
  - pose proof (exportable_fields _ (Forall_inv H)) as (Hd & Hh & _).
    apply Forall_inv_tail in H.
    change (List.map csvRow (e :: e' :: es))
      with (csvRow e :: csvRow e' :: List.map csvRow es).
    rewrite concat_cons2.
    rewrite (read_row _ _ _ Hd Hh). simpl append.
    change (readCSV (String newline ?r) QuoteSeen ?f ?row ?rws)
      with (readCSV r FieldStart EmptyString [] (rws ++ [row ++ [f]])%list).
    change (csvRow e' :: List.map csvRow es) with (List.map csvRow (e' :: es)).
    rewrite (IH e' _ H). f_equal.
    rewrite <- app_assoc. reflexivity.
Qed.

Lemma decodeRow_rowFields (e : Entry.t) :
  exportable e ->
  decodeRow (rowFields e) = Some (Entry.date e, Entry.hours e, noteText e).
Proof.
  intros H. apply exportable_fields in H. destruct H as (_ & _ & Hn).
  unfold decodeRow, rowFields. now rewrite Hn.
Qed.

Lemma concat_empty_cons (x : string) (l : list string) :
  String.concat EmptyString (x :: l) = (x ++ String.concat EmptyString l)%string.
Proof. destruct l; simpl; [now rewrite string_app_nil_r | reflexivity]. Qed.

(** The [replace] call of the export doubles each double quote. *)
Lemma escapeQuotes_doubledQuotes (s : string) : escapeQuotes s = doubledQuotes s.
Proof.
  unfold doubledQuotes. induction s as [| c s IH]; [reflexivity |].
  simpl list_ascii_of_string. simpl List.map. rewrite concat_empty_cons, <- IH.
  simpl escapeQuotes. destruct (Ascii.eqb c dquote); reflexivity.
Qed.

(** C8. The exported text is the header row [date,hours,note] followed by
    one row per entry in store order: the date, the hours and the note, the
    note between double quotes with each of its double quotes written
    twice. For entries whose date is plain text (no comma, double quote or
    line feed) and whose hours are a decimal number, reading the text back
    yields the header and, row by row, the date, the hours and the note of
    each entry, whatever the note contains (an absent note comes back as
    the empty string). *)
Theorem csv_round_trip (entries : list Entry.t) :
  Forall exportable entries ->
  exportCSV entries
  = String.concat (String newline EmptyString)
      ("date,hours,note"
       :: List.map
            (fun e =>
               Entry.date e ++ String comma (ToString (Entry.hours e))
                 ++ String comma (quotedField (default EmptyString (Entry.note e))))%string
            entries)
  /\ exists rows,
      parseCSV (exportCSV entries) = Some (["date"; "hours"; "note"] :: rows)
      /\ List.map decodeRow rows
         = List.map
             (fun e => Some (Entry.date e, Entry.hours e,
                             default EmptyString (Entry.note e)))
             entries.
Proof.
  intros H. split.
  { unfold exportCSV, csvHeader. do 2 f_equal. apply map_ext. intros e.
    unfold csvRow, quotedField. now rewrite escapeQuotes_doubledQuotes. }
  exists (List.map rowFields entries). split.
  - unfold parseCSV, exportCSV.
    destruct entries as [| e es]; [reflexivity |].
    change (List.map csvRow (e :: es)) with (csvRow e :: List.map csvRow es).
    rewrite concat_cons2.
    change (csvRow e :: List.map csvRow es) with (List.map csvRow (e :: es)).
    unfold csvHeader.
    set (body := String.concat _ (List.map csvRow (e :: es))).
    change (readCSV body FieldStart EmptyString [] [["date"; "hours"; "note"]]
            = Some (["date"; "hours"; "note"] :: List.map rowFields (e :: es))).
    unfold body. now rewrite (read_rows e es _ H).
  - rewrite List.map_map. apply map_ext_in. intros e He.
    rewrite decodeRow_rowFields; [reflexivity |].
    rewrite List.Forall_forall in H. now apply H.
Qed.

Lemma csv_round_trip_witness :
  exportCSV quotedNote
  = String.concat (String newline EmptyString)
      ("date,hours,note"
       :: List.map
            (fun e =>
               Entry.date e ++ String comma (ToString (Entry.hours e))
                 ++ String comma (quotedField (default EmptyString (Entry.note e))))%string
            quotedNote)
  /\ exists rows,
      parseCSV (exportCSV quotedNote) = Some (["date"; "hours"; "note"] :: rows)
      /\ List.map decodeRow rows
         = List.map
             (fun e => Some (Entry.date e, Entry.hours e,
                             default EmptyString (Entry.note e)))
             quotedNote.
Proof.
  apply (csv_round_trip quotedNote).
  repeat constructor.
Defined.

(** A note with a comma, a line feed and double quotes comes back as it
    was. *)
Example csv_rows_read_back :
  parseCSV (exportCSV quotedNote)
  = Some [ ["date"; "hours"; "note"];
           ["2024-03-01"; "2";
            "said " ++ String dquote ("hi" ++ String dquote (", then" ++ String newline "left"))];
           ["2024-03-02"; "7.5"; EmptyString] ].
Proof. reflexivity. Qed.

(* ===================================================================== *)
(** * More on the handlers *)
(* ===================================================================== *)

Lemma Tracker_addEntry_validates_witness :
  (exists msg,
      Tracker.addEntry "e9" (setHours (Str "-1") twoEntries)
      = (Alert msg, setHours (Str "-1") twoEntries))
  /\ fst (Tracker.addEntry "e9" twoEntries) = Silent.
Proof.
  split.
  - apply (Tracker_addEntry_validates "e9" (setHours (Str "-1") twoEntries)).
    right. right. reflexivity.
  - apply (Tracker_addEntry_validates "e9" twoEntries);
      [discriminate | reflexivity | reflexivity].
Defined.

(** X2. [addWishlist] of the first component validates the form: with a name
    that is blank after trimming, or a price that [Number] reads as [NaN]
    or as negative, it shows an alert and leaves the state as it was;
    otherwise it appends one item, with the trimmed name and the price as a
    number, after the items already there, leaves the entries alone and
    clears the two form fields. *)
Theorem addWishlist_validates (uid : string) (st : State) :
  (trim (itemName st) = EmptyString
   \/ isNaN (itemPrice st) = true
   \/ ltNumber (itemPrice st) (ofZ 0) = true ->
   exists msg, Tracker.addWishlist uid st = (Alert msg, st))
  /\ (trim (itemName st) <> EmptyString ->
      isNaN (itemPrice st) = false ->
      ltNumber (itemPrice st) (ofZ 0) = false ->
      fst (Tracker.addWishlist uid st) = Silent
      /\ wishlist (snd (Tracker.addWishlist uid st))
         = (wishlist st
              ++ [Item.make uid (trim (itemName st)) (ToNumber (itemPrice st))])%list
      /\ entries (snd (Tracker.addWishlist uid st)) = entries st
      /\ itemName (snd (Tracker.addWishlist uid st)) = EmptyString
      /\ itemPrice (snd (Tracker.addWishlist uid st)) = zero).
Proof.
  unfold Tracker.addWishlist. split.
  - intros H.
    destruct (ToBoolean (Str (trim (itemName st)))) eqn:En; simpl negb; cbv iota.
    2: { eexists. reflexivity. }
    destruct H as [H | [H | H]].
    + apply ToBoolean_Str in H. congruence.
    + rewrite H. simpl. eexists. reflexivity.
    + rewrite H, orb_true_r. eexists. reflexivity.
  - intros Hname Hn Hl.
    destruct (ToBoolean (Str (trim (itemName st)))) eqn:En.
    2: { apply ToBoolean_Str in En. contradiction. }
    rewrite Hn, Hl. simpl. repeat split.
Qed.

Lemma addWishlist_validates_witness :
  (exists msg,
      Tracker.addWishlist "a1b2c3d"
        (setItemPrice (Str "120") (setItemName "   " (initialState "2024-01-05")))
      = (Alert msg,
         setItemPrice (Str "120") (setItemName "   " (initialState "2024-01-05"))))
  /\ wishlist
       (snd (Tracker.addWishlist "a1b2c3d"
               (setItemPrice (Str "120") (setItemName " bike " (initialState "2024-01-05")))))
     = [Item.make "a1b2c3d" "bike" (ToNumber (Str "120"))].
Proof.
  split.
  - apply (addWishlist_validates "a1b2c3d"
             (setItemPrice (Str "120") (setItemName "   " (initialState "2024-01-05")))).
    left. reflexivity.
  - apply (addWishlist_validates "a1b2c3d"
             (setItemPrice (Str "120") (setItemName " bike " (initialState "2024-01-05"))));
      [discriminate | reflexivity | reflexivity].
Defined.

(** A name that holds nothing but a no-break space is blank for [trim]:
    the item is refused. *)
Example addWishlist_no_break_space :
  exists msg,
    Tracker.addWishlist "a1b2c3d"
      (setItemPrice (Str "120")
         (setItemName (String "160"%char EmptyString) (initialState "2024-01-05")))
    = (Alert msg,
       setItemPrice (Str "120")
         (setItemName (String "160"%char EmptyString) (initialState "2024-01-05"))).
Proof. eexists. reflexivity. Qed.

Lemma filter_all {A : Type} (p : A -> bool) (l : list A) :
  (forall x, In x l -> p x = true) -> List.filter p l = l.
Proof.
  induction l as [| x l IH]; simpl; intros H; [reflexivity |].
  rewrite (H x (or_introl eq_refl)). f_equal. apply IH. intros y Hy. apply H. now right.
Qed.

Lemma filter_StronglySorted {A : Type} (R : A -> A -> Prop) (p : A -> bool) (l : list A) :
  StronglySorted R l -> StronglySorted R (List.filter p l).
Proof.
  induction 1 as [| a l Hs IH Ha]; simpl; [constructor |].
  destruct (p a); [| exact IH].
  constructor; [exact IH |].
  rewrite List.Forall_forall in *. intros x Hx. apply filter_In in Hx. now apply Ha.
Qed.

Lemma setWishlist_same (f : list Item.t -> list Item.t) (st : State) :
  f (wishlist st) = wishlist st -> setWishlist f st = st.
Proof. intros H. unfold setWishlist. rewrite H. now destruct st. Qed.

Lemma neqb_true (a b : string) : negb (String.eqb a b) = true <-> a <> b.
Proof.
  destruct (String.eqb_spec a b); simpl; split; intros; try easy.
Qed.

(** X3. [removeEntry(id)] removes every entry with that identifier and nothing
    else: the entries left are those with another identifier, still in
    ascending order of date if they were; the wishlist is untouched; and
    when no entry has the identifier the state is left as it was. *)
Theorem removeEntry_effect (id : string) (st : State) :
  (forall e, In e (entries (removeEntry id st))
             <-> In e (entries st) /\ Entry.id e <> id)
  /\ ~ In id (List.map Entry.id (entries (removeEntry id st)))
  /\ (sortedByDate (entries st) -> sortedByDate (entries (removeEntry id st)))
  /\ wishlist (removeEntry id st) = wishlist st
  /\ (~ In id (List.map Entry.id (entries st)) -> removeEntry id st = st).
Proof.
  unfold removeEntry. simpl.
  split; [| split; [| split; [| split]]].
  - intros e. rewrite filter_In, neqb_true. tauto.
  - intros H. apply in_map_iff in H. destruct H as (e & He & Hin).
    apply filter_In in Hin. destruct Hin as [_ Hin]. apply neqb_true in Hin. congruence.
  - apply filter_StronglySorted.
  - reflexivity.
  - intros H. apply setEntries_same. apply filter_all.
    intros e He. apply neqb_true. intros E. apply H. apply in_map_iff. now exists e.
Qed.

Lemma removeEntry_effect_witness :
  sortedByDate (entries (removeEntry "e1" (setEntries (fun _ => threeEntries) (initialState "2024-02-01"))))
  /\ removeEntry "zz" (setEntries (fun _ => threeEntries) (initialState "2024-02-01"))
     = setEntries (fun _ => threeEntries) (initialState "2024-02-01").
Proof.
  split.
  - apply (removeEntry_effect "e1" (setEntries (fun _ => threeEntries) (initialState "2024-02-01"))).
    repeat constructor.
  - apply (removeEntry_effect "zz" (setEntries (fun _ => threeEntries) (initialState "2024-02-01"))).
    simpl. intuition discriminate.
Defined.

(** X4. [removeWishlist(id)] removes every item with that identifier and
    nothing else, keeps the entries, and leaves the state as it was when no
    item has the identifier. *)
Theorem removeWishlist_effect (id : string) (st : State) :
  (forall w, In w (wishlist (removeWishlist id st))
             <-> In w (wishlist st) /\ Item.id w <> id)
  /\ ~ In id (List.map Item.id (wishlist (removeWishlist id st)))
  /\ entries (removeWishlist id st) = entries st
  /\ (~ In id (List.map Item.id (wishlist st)) -> removeWishlist id st = st).
Proof.
  unfold removeWishlist. simpl.
  split; [| split; [| split]].
  - intros e. rewrite filter_In, neqb_true. tauto.
  - intros H. apply in_map_iff in H. destruct H as (e & He & Hin).
    apply filter_In in Hin. destruct Hin as [_ Hin]. apply neqb_true in Hin. congruence.
  - reflexivity.
  - intros H. apply setWishlist_same. apply filter_all.
    intros e He. apply neqb_true. intros E. apply H. apply in_map_iff. now exists e.
Qed.

Lemma removeWishlist_effect_witness :
  removeWishlist "zz"
    (setWishlist (fun _ => [Item.make "w1" "bike" (ofZ 100)]) (initialState "2024-02-01"))
  = setWishlist (fun _ => [Item.make "w1" "bike" (ofZ 100)]) (initialState "2024-02-01").
Proof.
  apply (removeWishlist_effect "zz"
           (setWishlist (fun _ => [Item.make "w1" "bike" (ofZ 100)]) (initialState "2024-02-01"))).
  simpl. intuition discriminate.
Defined.

Lemma filter_other_length {A : Type} (f : A -> string) (id : string) (l : list A) :
  List.NoDup (List.map f l) -> In id (List.map f l) ->
  S (List.length (List.filter (fun e => negb (String.eqb (f e) id)) l)) = List.length l.
Proof.
  induction l as [| x l IH]; simpl; intros Hnd Hin; [destruct Hin |].
  apply List.NoDup_cons_iff in Hnd. destruct Hnd as [Hx Hl].
  destruct (String.eqb_spec (f x) id) as [E | E]; simpl.
  - f_equal. f_equal. apply filter_all. intros y Hy. apply neqb_true.
    intros E'. apply Hx. rewrite E, <- E'. now apply in_map.
  - f_equal. apply IH; [exact Hl |]. destruct Hin as [Hin | Hin]; [contradiction | exact Hin].
Qed.

(** X5. When no two entries share an identifier, deleting an entry that is in
    the store removes exactly that one entry; likewise for the items of
    the wishlist. *)
Theorem remove_exactly_one (id : string) (st : State) :
  uniqueIds st ->
  (In id (List.map Entry.id (entries st)) ->
   S (List.length (entries (removeEntry id st))) = List.length (entries st))
  /\ (In id (List.map Item.id (wishlist st)) ->
      S (List.length (wishlist (removeWishlist id st))) = List.length (wishlist st)).
Proof.
  intros [He Hw]. split; intros Hin.
  - exact (filter_other_length Entry.id id (entries st) He Hin).
  - exact (filter_other_length Item.id id (wishlist st) Hw Hin).
Qed.

Lemma remove_exactly_one_witness :
  S (List.length (entries (removeEntry "e2" sampleStore)))
  = List.length (entries sampleStore)
  /\ S (List.length (wishlist (removeWishlist "w1" sampleStore)))
     = List.length (wishlist sampleStore).
Proof.
  assert (Hu : uniqueIds sampleStore).
  { split; simpl; repeat (constructor; [simpl; intuition discriminate |]); constructor. }
  split.
  - apply (proj1 (remove_exactly_one "e2" sampleStore Hu)). simpl. tauto.
  - apply (proj2 (remove_exactly_one "w1" sampleStore Hu)). simpl. tauto.
Defined.

Lemma map_same {A : Type} (f : A -> A) (l : list A) :
  (forall x, In x l -> f x = x) -> List.map f l = l.
Proof.
  induction l as [| x l IH]; simpl; intros H; [reflexivity |].
  rewrite (H x (or_introl eq_refl)). f_equal. apply IH. intros y Hy. apply H. now right.
Qed.

(** X6. An edit of the hours in the data table is ignored when [Number] reads
    the text as [NaN] or as negative: the state is left as it was.
    Otherwise every entry with the identifier gets the number read, and an
    edit of the note gives every such entry the new note, whatever it
    is. *)
Theorem updateEntryField_effect (id v : string) (st : State) :
  (isNaN (Num (ToNumber (Str v))) = true \/ JS.lt (ToNumber (Str v)) (ofZ 0) = true ->
   Tracker.updateEntryField id "hours" v st = st)
  /\ (isNaN (Num (ToNumber (Str v))) = false ->
      JS.lt (ToNumber (Str v)) (ofZ 0) = false ->
      forall e, In e (entries (Tracker.updateEntryField id "hours" v st)) ->
                Entry.id e = id ->
                Entry.hours e = Num (ToNumber (Str v)))
  /\ (forall e, In e (entries (Tracker.updateEntryField id "note" v st)) ->
                Entry.id e = id ->
                Entry.note e = Some v).
Proof.
  split; [| split].
  - intros H. apply setEntries_same. apply map_same. intros e _.
    unfold Tracker.updateEntry.
    destruct (negb (String.eqb (Entry.id e) id)); [reflexivity |].
    simpl String.eqb. cbv iota.
    destruct H as [H | H]; rewrite H; [| rewrite orb_true_r]; reflexivity.
  - intros Hn Hl e He Hid. simpl in He. apply in_map_iff in He.
    destruct He as (e0 & <- & _).
    rewrite updateEntry_id in Hid.
    unfold Tracker.updateEntry. rewrite Hid, String.eqb_refl. simpl negb. cbv iota.
    simpl String.eqb. cbv iota. rewrite Hn, Hl. reflexivity.
  - intros e He Hid. simpl in He. apply in_map_iff in He.
    destruct He as (e0 & <- & _).
    rewrite updateEntry_id in Hid.
    unfold Tracker.updateEntry. rewrite Hid, String.eqb_refl. reflexivity.
Qed.

Lemma updateEntryField_effect_witness :
  Tracker.updateEntryField "e1" "hours" "-3" twoEntries = twoEntries
  /\ Tracker.updateEntryField "e1" "hours" "seven" twoEntries = twoEntries.
Proof.
  split.
  - apply (updateEntryField_effect "e1" "-3" twoEntries). right. reflexivity.
  - apply (updateEntryField_effect "e1" "seven" twoEntries). left. reflexivity.
Defined.

(* ===================================================================== *)
(** * Invariants of the stores *)
(* ===================================================================== *)

Lemma map_keeps_sortedByDate (f : Entry.t -> Entry.t) (l : list Entry.t) :
  (forall e, Entry.date (f e) = Entry.date e) ->
  sortedByDate l -> sortedByDate (List.map f l).
Proof.
  intros Hf. unfold sortedByDate.
  induction 1 as [| a l Hs IH Ha]; simpl; constructor; [exact IH |].
  rewrite List.Forall_forall in *. intros x Hx. apply in_map_iff in Hx.
  destruct Hx as (y & <- & Hy). unfold dateNotAfter. rewrite !Hf. now apply Ha.
Qed.

Lemma step_keeps_sorted (st : State) (a : action) :
  sortedByDate (entries st) -> sortedByDate (entries (step st a)).
Proof.
  intros H. destruct a; simpl; try exact H.
  - unfold Tracker.addEntry.
    destruct (negb (ToBoolean (Str (date st)))); [exact H |].
    destruct (isNaN (hours st) || ltNumber (hours st) (ofZ 0))%bool; [exact H |].
    simpl. apply sortWith_byDate_sorted.
  - now apply filter_StronglySorted.
  - apply map_keeps_sortedByDate; [| exact H]. intros e. apply updateEntry_date.
  - unfold Tracker.addWishlist.
    destruct (negb (ToBoolean (Str (trim (itemName st))))); [exact H |].
    destruct (isNaN (itemPrice st) || ltNumber (itemPrice st) (ofZ 0))%bool; exact H.
  - destruct confirmed; simpl; [constructor | exact H].
Qed.

(** X7. The first component keeps its entries in ascending order of date:
    whatever is done (entries added, edited in the table or removed, the
    form and the settings changed, the wishlist changed, everything
    cleared), a store that was in that order still is. *)
Theorem run_keeps_sorted (st : State) (acts : list action) :
  sortedByDate (entries st) -> sortedByDate (entries (run st acts)).
Proof.
  revert st. induction acts as [| a acts IH]; intros st H; simpl; [exact H |].
  apply IH. now apply step_keeps_sorted.
Qed.

Lemma run_keeps_sorted_witness :
  sortedByDate
    (entries (run sampleStore
                [AddEntry "a"; SetDate "2024-01-02"; SetHours "2.5"; AddEntry "b";
                 UpdateEntryField "a" "hours" "4"; RemoveEntry "e2"])).
Proof.
  apply (run_keeps_sorted sampleStore). repeat constructor.
Defined.

Lemma validated_number (v : value) :
  isNaN v = false -> ltNumber v (ofZ 0) = false ->
  exists q, ToNumber v = Fin q /\ (0 <= q)%Qc.
Proof.
  unfold isNaN, ltNumber. destruct (ToNumber v) as [| q]; [discriminate |].
  intros _ H. exists q. split; [reflexivity |].
  unfold JS.lt, ofZ in H.
  destruct (Qclt_le_dec q (Q2Qc (inject_Z 0))) as [Hlt | Hle]; [discriminate | exact Hle].
Qed.

Lemma updateEntry_admitted (id field v : string) (e : Entry.t) :
  admittedEntry e -> admittedEntry (Tracker.updateEntry id field v e).
Proof.
  intros [Hd Hh]. unfold Tracker.updateEntry.
  destruct (negb (String.eqb (Entry.id e) id)); [now split |].
  destruct (String.eqb field "hours").
  - destruct (isNaN (Num (ToNumber (Str v))) || JS.lt (ToNumber (Str v)) (ofZ 0))%bool eqn:E;
      [now split |].
    apply orb_false_elim in E. destruct E as [En El].
    destruct (validated_number (Num (ToNumber (Str v))) En El) as (q & Hq & Hpos).
    split; [exact Hd |]. exists q. simpl in Hq. simpl. now rewrite Hq.
  - destruct (String.eqb field "note"); now split.
Qed.

Lemma step_keeps_admitted_entries (st : State) (a : action) :
  Forall admittedEntry (entries st) -> Forall admittedEntry (entries (step st a)).
Proof.
  intros H. destruct a; simpl; try exact H.
  - unfold Tracker.addEntry.
    destruct (ToBoolean (Str (date st))) eqn:Ed; simpl negb; cbv iota; [| exact H].
    destruct (isNaN (hours st) || ltNumber (hours st) (ofZ 0))%bool eqn:E; [exact H |].
    apply orb_false_elim in E. destruct E as [En El].
    destruct (validated_number (hours st) En El) as (q & Hq & Hpos).
    simpl. eapply Permutation_Forall; [apply sortWith_byDate_Permutation |].
    apply Forall_app. split; [exact H |].
    constructor; [| constructor]. split; simpl.
    + intros E. apply ToBoolean_Str in E. congruence.
    + exists q. now rewrite Hq.
  - rewrite List.Forall_forall in *. intros e He. apply filter_In in He. now apply H.
  - rewrite List.Forall_forall in *. intros e He. apply in_map_iff in He.
    destruct He as (e0 & <- & He0). apply updateEntry_admitted. now apply H.
  - unfold Tracker.addWishlist.
    destruct (negb (ToBoolean (Str (trim (itemName st))))); [exact H |].
    destruct (isNaN (itemPrice st) || ltNumber (itemPrice st) (ofZ 0))%bool; exact H.
  - destruct confirmed; simpl; [constructor | exact H].
Qed.

(** X8. Every entry the first component stores has a date and hours that are a
    number and not negative: entries are admitted by [addEntry] only so,
    and an edit in the data table that would break it is ignored. *)
Theorem run_keeps_admitted_entries (st : State) (acts : list action) :
  Forall admittedEntry (entries st) ->
  Forall admittedEntry (entries (run st acts)).
Proof.
  revert st. induction acts as [| a acts IH]; intros st H; simpl; [exact H |].
  apply IH. now apply step_keeps_admitted_entries.
Qed.

Lemma run_keeps_admitted_entries_witness :
  Forall admittedEntry
    (entries (run sampleStore
                [AddEntry "a"; SetHours "-2"; AddEntry "b"; SetDate EmptyString;
                 SetHours "3"; AddEntry "c"; UpdateEntryField "a" "hours" "x"])).
Proof.
  apply (run_keeps_admitted_entries sampleStore).
  repeat (constructor;
          [split; [discriminate | eexists; split; [reflexivity | discriminate]] |]).
  constructor.
Defined.

Lemma step_keeps_admitted_items (st : State) (a : action) :
  Forall admittedItem (wishlist st) -> Forall admittedItem (wishlist (step st a)).
Proof.
  intros H. destruct a; simpl; try exact H.
  - unfold Tracker.addEntry.
    destruct (negb (ToBoolean (Str (date st)))); [exact H |].
    destruct (isNaN (hours st) || ltNumber (hours st) (ofZ 0))%bool; exact H.
  - unfold Tracker.addWishlist.
    destruct (ToBoolean (Str (trim (itemName st)))) eqn:Ed; simpl negb; cbv iota; [| exact H].
    destruct (isNaN (itemPrice st) || ltNumber (itemPrice st) (ofZ 0))%bool eqn:E; [exact H |].
    apply orb_false_elim in E. destruct E as [En El].
    destruct (validated_number (itemPrice st) En El) as (q & Hq & Hpos).
    simpl. apply Forall_app. split; [exact H |].
    constructor; [| constructor]. split; simpl.
    + intros E. apply ToBoolean_Str in E. congruence.
    + exists q. now rewrite Hq.
  - rewrite List.Forall_forall in *. intros e He. apply filter_In in He. now apply H.
  - destruct confirmed; simpl; [constructor | exact H].
Qed.

(** X9. Every item the first component keeps in the wishlist has a name that
    is not empty and a price that is a number and not negative. *)
Theorem run_keeps_admitted_items (st : State) (acts : list action) :
  Forall admittedItem (wishlist st) ->
  Forall admittedItem (wishlist (run st acts)).
Proof.
  revert st. induction acts as [| a acts IH]; intros st H; simpl; [exact H |].
  apply IH. now apply step_keeps_admitted_items.
Qed.

Lemma run_keeps_admitted_items_witness :
  Forall admittedItem
    (wishlist (run sampleStore
                 [SetItemName "kettle"; SetItemPrice "35"; AddWishlist "w3";
                  SetItemPrice "-5"; AddWishlist "w4"; RemoveWishlist "w1"])).
Proof.
  apply (run_keeps_admitted_items sampleStore).
  repeat (constructor;
          [split; [discriminate | eexists; split; [reflexivity | discriminate]] |]).
  constructor.
Defined.

(* ===================================================================== *)
(** * The data table *)
(* ===================================================================== *)

Lemma insertSorted_ext {A : Type} (cmp cmp' : A -> A -> Z) (x : A) (l : list A) :
  (forall a b, cmp a b = cmp' a b) -> insertSorted cmp x l = insertSorted cmp' x l.
Proof.
  intros H. induction l as [| y l IH]; simpl; [reflexivity |].
  rewrite H, IH. reflexivity.
Qed.

Lemma sortWith_ext {A : Type} (cmp cmp' : A -> A -> Z) (l : list A) :
  (forall a b, cmp a b = cmp' a b) -> sortWith cmp l = sortWith cmp' l.
Proof.
  intros H. unfold sortWith. generalize (@nil A) as acc.
  induction l as [| x l IH]; intros acc; simpl; [reflexivity |].
  rewrite (insertSorted_ext cmp cmp' x acc H). apply IH.
Qed.

Lemma insertSorted_last {A : Type} (cmp : A -> A -> Z) (x : A) (l : list A) :
  Forall (fun y => notAfter cmp y x) l -> insertSorted cmp x l = (l ++ [x])%list.
Proof.
  induction 1 as [| y l Hy Hl IH]; simpl; [reflexivity |].
  unfold notAfter in Hy. destruct (Z.ltb_spec 0 (cmp y x)); [lia |].
  now rewrite IH.
Qed.

Lemma StronglySorted_middle {A : Type} (R : A -> A -> Prop) (acc l : list A) (x : A) :
  StronglySorted R (acc ++ x :: l)%list -> Forall (fun y => R y x) acc.
Proof.
  induction acc as [| a acc IH]; simpl; intros H; [constructor |].
  apply StronglySorted_inv in H. destruct H as [Hs Ha].
  constructor; [| now apply IH].
  rewrite List.Forall_forall in Ha. apply Ha. apply in_or_app. right. now left.
Qed.

Lemma sortWith_from_fixed {A : Type} (cmp : A -> A -> Z) (l acc : list A) :
  StronglySorted (notAfter cmp) (acc ++ l)%list ->
  fold_left (fun a x => insertSorted cmp x a) l acc = (acc ++ l)%list.
Proof.
  revert acc. induction l as [| x l IH]; intros acc H; simpl.
  - now rewrite app_nil_r.
  - rewrite (insertSorted_last cmp x acc (StronglySorted_middle _ _ _ _ H)).
    rewrite IH; rewrite <- app_assoc; [reflexivity | exact H].
Qed.

Lemma sortWith_fixed {A : Type} (cmp : A -> A -> Z) (l : list A) :
  StronglySorted (notAfter cmp) l -> sortWith cmp l = l.
Proof. intros H. exact (sortWith_from_fixed cmp l [] H). Qed.

Lemma tableCompare_date_asc (a b : Entry.t) : tableCompare byDateAsc a b = byDate a b.
Proof.
  unfold tableCompare, byDate, localeCompare. simpl.
  unfold String.ltb. rewrite (String.compare_antisym (Entry.date a) (Entry.date b)).
  destruct (String.compare (Entry.date b) (Entry.date a)); reflexivity.
Qed.

Lemma tableCompare_date_desc (a b : Entry.t) : tableCompare byDateDesc a b = byDate b a.
Proof.
  unfold tableCompare, byDate, localeCompare. simpl.
  unfold String.ltb. rewrite (String.compare_antisym (Entry.date a) (Entry.date b)).
  destruct (String.compare (Entry.date b) (Entry.date a)); reflexivity.
Qed.

Lemma flip_total (a b : Entry.t) : (0 < byDate b a)%Z -> (byDate a b <= 0)%Z.
Proof. apply byDate_total. Qed.

Lemma flip_trans (a b c : Entry.t) :
  (byDate b a <= 0)%Z -> (byDate c b <= 0)%Z -> (byDate c a <= 0)%Z.
Proof. intros H1 H2. exact (byDate_trans c b a H2 H1). Qed.

(** X11. The data table shows the entries of the store, each one as often as
    the store has it, whatever the sort configuration is: sorting only
    reorders. *)
Theorem sortedEntries_Permutation (entries : list Entry.t) (sortConfig : option SortConfig.t) :
  Permutation entries (sortedEntries entries sortConfig).
Proof.
  destruct sortConfig as [c |]; simpl; [apply sortWith_Permutation | reflexivity].
Qed.

(** X12. Sorted by date, the data table is in ascending order of date for the
    direction [asc] and in descending order for [desc]. *)
Theorem sortedEntries_by_date (entries : list Entry.t) :
  StronglySorted dateNotAfter (sortedEntries entries (Some byDateAsc))
  /\ StronglySorted dateNotBefore (sortedEntries entries (Some byDateDesc)).
Proof.
  split; simpl.
  - rewrite (sortWith_ext _ byDate entries tableCompare_date_asc).
    apply sortWith_byDate_sorted.
  - rewrite (sortWith_ext _ (fun a b => byDate b a) entries tableCompare_date_desc).
    pose proof (sortWith_sorted (fun a b => byDate b a) flip_total flip_trans entries) as H.
    eapply StronglySorted_weaken; [| exact H].
    intros a b Hab. apply localeCompare_le. exact Hab.
Qed.

(** X13. Under the initial sort configuration (by date, ascending) the data
    table lists a store that is in ascending order of date in the order of
    the store: the sort is stable and moves nothing. *)
Theorem sortedEntries_initial (entries : list Entry.t) :
  sortedByDate entries -> sortedEntries entries (Some initialSortConfig) = entries.
Proof.
  intros H. unfold sortedEntries, initialSortConfig.
  rewrite (sortWith_ext _ byDate entries tableCompare_date_asc).
  apply sortWith_fixed. eapply StronglySorted_weaken; [| exact H].
  intros a b Hab. apply localeCompare_le. exact Hab.
Qed.

Lemma sortedEntries_initial_witness :
  sortedEntries threeEntries (Some initialSortConfig) = threeEntries.
Proof.
  apply (sortedEntries_initial threeEntries). repeat constructor.
Defined.

Section SortOn.
Context {A : Type} (cmp : A -> A -> Z) (P : A -> Prop).

Hypothesis cmp_total_on :
  forall a b, P a -> P b -> (0 < cmp a b)%Z -> (cmp b a <= 0)%Z.
Hypothesis cmp_trans_on :
  forall a b c, P a -> P b -> P c ->
                (cmp a b <= 0)%Z -> (cmp b c <= 0)%Z -> (cmp a c <= 0)%Z.

Lemma insertSorted_sorted_on (x : A) (l : list A) :
  P x -> Forall P l ->
  StronglySorted (notAfter cmp) l -> StronglySorted (notAfter cmp) (insertSorted cmp x l).
Proof.
  intros Hx Hl Hs. induction Hs as [| y l Hs IH Hy]; simpl.
  - repeat constructor.
  - apply Forall_cons_iff in Hl. destruct Hl as [Hpy Hl].
    destruct (0 <? cmp y x)%Z eqn:E.
    + apply Z.ltb_lt in E. pose proof (cmp_total_on _ _ Hpy Hx E) as Hxy.
      constructor; [now constructor |].
      constructor; [exact Hxy |].
      rewrite List.Forall_forall in *. intros z Hz.
      exact (cmp_trans_on _ _ _ Hx Hpy (Hl z Hz) Hxy (Hy z Hz)).
    + apply Z.ltb_ge in E.
      constructor; [now apply IH |].
      eapply Permutation_Forall; [apply insertSorted_Permutation |].
      now constructor.
Qed.

Lemma sortWith_from_sorted_on (l acc : list A) :
  Forall P l -> Forall P acc ->
  StronglySorted (notAfter cmp) acc ->
  StronglySorted (notAfter cmp) (fold_left (fun a x => insertSorted cmp x a) l acc).
Proof.
  intros Hl. revert acc. induction Hl as [| x l Hx Hl IH]; intros acc Hacc Hs; simpl;
    [exact Hs |].
  apply IH.
  - eapply Permutation_Forall; [apply insertSorted_Permutation |]. now constructor.
  - now apply insertSorted_sorted_on.
Qed.

Lemma sortWith_sorted_on (l : list A) :
  Forall P l -> StronglySorted (notAfter cmp) (sortWith cmp l).
Proof. intros H. apply sortWith_from_sorted_on; [exact H | constructor | constructor]. Qed.

End SortOn.

Lemma tableCompare_hours_asc (a b : Entry.t) (x y : Qc) :
  ToNumber (Entry.hours a) = Fin x -> ToNumber (Entry.hours b) = Fin y ->
  tableCompare byHoursAsc a b
  = if Qclt_le_dec x y then -1 else if Qclt_le_dec y x then 1 else 0.
Proof.
  intros Ha Hb.
  change (tableCompare byHoursAsc a b)
    with (if lessThan (Num (ToNumber (Entry.hours a))) (Num (ToNumber (Entry.hours b)))
          then -1
          else if lessThan (Num (ToNumber (Entry.hours b))) (Num (ToNumber (Entry.hours a)))
               then 1 else 0).
  rewrite Ha, Hb. simpl.
  destruct (Qclt_le_dec x y); [reflexivity |].
  destruct (Qclt_le_dec y x); reflexivity.
Qed.

Lemma readable_Fin (e : Entry.t) : readableHours e -> exists q, ToNumber (Entry.hours e) = Fin q.
Proof.
  unfold readableHours. destruct (ToNumber (Entry.hours e)) as [| q]; [congruence |].
  intros _. now exists q.
Qed.

Lemma hours_total (a b : Entry.t) :
  readableHours a -> readableHours b ->
  (0 < tableCompare byHoursAsc a b)%Z -> (tableCompare byHoursAsc b a <= 0)%Z.
Proof.
  intros Ha Hb. destruct (readable_Fin a Ha) as (x & Hx). destruct (readable_Fin b Hb) as (y & Hy).
  rewrite (tableCompare_hours_asc a b x y Hx Hy), (tableCompare_hours_asc b a y x Hy Hx).
  destruct (Qclt_le_dec x y), (Qclt_le_dec y x); lia.
Qed.

Lemma hours_notAfter (a b : Entry.t) (x y : Qc) :
  ToNumber (Entry.hours a) = Fin x -> ToNumber (Entry.hours b) = Fin y ->
  (tableCompare byHoursAsc a b <= 0)%Z <-> (x <= y)%Qc.
Proof.
  intros Hx Hy. rewrite (tableCompare_hours_asc a b x y Hx Hy).
  destruct (Qclt_le_dec x y) as [H | H].
  - split; [intros _; now apply Qclt_le_weak | lia].
  - destruct (Qclt_le_dec y x) as [H' | H'].
    + split; [lia |]. intros Hle. exfalso. exact (Qclt_not_le _ _ H' Hle).
    + split; [intros _; exact H' | lia].
Qed.

Lemma hours_trans (a b c : Entry.t) :
  readableHours a -> readableHours b -> readableHours c ->
  (tableCompare byHoursAsc a b <= 0)%Z -> (tableCompare byHoursAsc b c <= 0)%Z ->
  (tableCompare byHoursAsc a c <= 0)%Z.
Proof.
  intros Ha Hb Hc.
  destruct (readable_Fin a Ha) as (x & Hx). destruct (readable_Fin b Hb) as (y & Hy).
  destruct (readable_Fin c Hc) as (z & Hz).
  rewrite (hours_notAfter a b x y Hx Hy), (hours_notAfter b c y z Hy Hz),
    (hours_notAfter a c x z Hx Hz).
  apply Qcle_trans.
Qed.

(** X14. Sorted by hours, the data table is in ascending order of the hours,
    provided [Number] reads the hours of every entry as a number. *)
Theorem sortedEntries_by_hours (entries : list Entry.t) :
  Forall readableHours entries ->
  StronglySorted hoursNotAfter (sortedEntries entries (Some byHoursAsc))
  /\ Forall readableHours (sortedEntries entries (Some byHoursAsc)).
Proof.
  intros H.
  assert (Hr : Forall readableHours (sortedEntries entries (Some byHoursAsc))).
  { eapply Permutation_Forall; [apply sortWith_Permutation | exact H]. }
  split; [| exact Hr].
  pose proof (sortWith_sorted_on (tableCompare byHoursAsc) readableHours
                hours_total hours_trans entries H) as Hs.
  simpl in Hr |- *. revert Hr.
  induction Hs as [| a l Hs IH Ha]; intros Hr; constructor.
  - apply IH. now apply Forall_cons_iff in Hr.
  - apply Forall_cons_iff in Hr. destruct Hr as [Hpa Hpl].
    rewrite List.Forall_forall in *. intros b Hb.
    destruct (readable_Fin a Hpa) as (x & Hx).
    destruct (readable_Fin b (Hpl b Hb)) as (y & Hy).
    unfold hoursNotAfter. rewrite Hx, Hy. apply le_Fin.
    apply (hours_notAfter a b x y Hx Hy). exact (Ha b Hb).
Qed.

Lemma sortedEntries_by_hours_witness :
  StronglySorted hoursNotAfter (sortedEntries twoWeeks (Some byHoursAsc))
  /\ Forall readableHours (sortedEntries twoWeeks (Some byHoursAsc)).
Proof.
  apply (sortedEntries_by_hours twoWeeks).
  repeat constructor; discriminate.
Defined.

Lemma clickHeader_ascending (c : SortConfig.t) (k : string) :
  SortConfig.direction c = "asc" -> SortConfig.direction (clickHeader c k) = "asc".
Proof.
  intros H. unfold clickHeader, requestSort.
  destruct (String.eqb (SortConfig.key c) k) eqn:E; [exact H |].
  cbn [SortConfig.direction]. reflexivity.
Qed.

Lemma clickHeader_key (c : SortConfig.t) (k : string) :
  SortConfig.key (clickHeader c k) = k.
Proof.
  unfold clickHeader, requestSort.
  destruct (String.eqb_spec (SortConfig.key c) k) as [E | E]; [exact E | reflexivity].
Qed.

Lemma last_cons_default {A : Type} (x : A) (l : list A) (d d' : A) :
  List.last (x :: l) d = List.last (x :: l) d'.
Proof.
  revert x. induction l as [| y l IH]; intros x; [reflexivity |].
  change (List.last (y :: l) d = List.last (y :: l) d'). apply IH.
Qed.

(** X15. Clicks on the headers of the data table never give a descending sort:
    the header of the column the table is sorted by has no click handler,
    so that [requestSort] is only ever called with another key and sets
    the direction [asc]. After the clicks the table is sorted by the key
    of the last header clicked. *)
Theorem headers_keep_ascending (c : SortConfig.t) (keys : list string) :
  SortConfig.direction c = "asc" ->
  SortConfig.direction (fold_left clickHeader keys c) = "asc"
  /\ SortConfig.key (fold_left clickHeader keys c) = List.last keys (SortConfig.key c).
Proof.
  revert c. induction keys as [| k keys IH]; intros c H; simpl; [now split |].
  destruct (IH (clickHeader c k) (clickHeader_ascending c k H)) as [Hd Hk].
  split; [exact Hd |]. rewrite Hk, clickHeader_key.
  destruct keys as [| k' keys]; [reflexivity |].
  apply last_cons_default.
Qed.

Lemma headers_keep_ascending_witness :
  SortConfig.direction
    (fold_left clickHeader ["hours"; "hours"; "date"; "date"; "hours"] initialSortConfig)
  = "asc"
  /\ SortConfig.key
       (fold_left clickHeader ["hours"; "hours"; "date"; "date"; "hours"] initialSortConfig)
     = List.last ["hours"; "hours"; "date"; "date"; "hours"] (SortConfig.key initialSortConfig).
Proof.
  apply (headers_keep_ascending initialSortConfig). reflexivity.
Defined.

(* ===================================================================== *)
(** * The month view *)
(* ===================================================================== *)

Lemma existsb_eqb (x : string) (l : list string) :
  existsb (String.eqb x) l = true <-> x ∈ l.
Proof.
  rewrite existsb_exists, list_elem_of_In. split.
  - intros (y & Hy & E). apply String.eqb_eq in E. now subst y.
  - intros H. exists x. split; [exact H | apply String.eqb_refl].
Qed.

Lemma setValues_from (l acc : list string) :
  NoDup acc ->
  NoDup (fold_left (fun seen x => if existsb (String.eqb x) seen then seen
                                  else (seen ++ [x])%list) l acc)
  /\ (forall x, x ∈ fold_left (fun seen x => if existsb (String.eqb x) seen then seen
                                             else (seen ++ [x])%list) l acc
                <-> x ∈ acc \/ x ∈ l).
Proof.
  revert acc. induction l as [| y l IH]; intros acc Hacc; simpl.
  - split; [exact Hacc |]. intros x. rewrite elem_of_nil. tauto.
  - destruct (existsb (String.eqb y) acc) eqn:E.
    + apply existsb_eqb in E. destruct (IH acc Hacc) as [Hn Hin].
      split; [exact Hn |]. intros x. rewrite Hin, elem_of_cons.
      split; [tauto |]. intros [H | [-> | H]]; tauto.
    + assert (Hy : y ∉ acc).
      { intros H. apply existsb_eqb in H. congruence. }
      assert (Hacc' : NoDup (acc ++ [y])).
      { apply NoDup_app. split; [exact Hacc |]. split.
        - intros x Hx Hx'. apply list_elem_of_singleton in Hx'. now subst x.
        - apply NoDup_singleton. }
      destruct (IH (acc ++ [y])%list Hacc') as [Hn Hin].
      split; [exact Hn |]. intros x.
      rewrite Hin, elem_of_app, !elem_of_cons, elem_of_nil. tauto.
Qed.

Lemma setValues_NoDup (l : list string) : NoDup (setValues l).
Proof. apply setValues_from. constructor. Qed.

Lemma setValues_In (l : list string) (x : string) : x ∈ setValues l <-> x ∈ l.
Proof.
  unfold setValues. rewrite (proj2 (setValues_from l [] (NoDup_nil_2))).
  rewrite elem_of_nil. tauto.
Qed.

Lemma merge_sort_ascending (l : list string) :
  NoDup l -> StronglySorted monthBefore (merge_sort String.le l).
Proof.
  intros Hnd.
  rewrite <- (merge_sort_Permutation String.le) in Hnd.
  pose proof (StronglySorted_merge_sort String.le l) as Hs.
  induction Hs as [| a l' Hs IH Ha]; constructor.
  - apply IH. now apply NoDup_cons_1_2 in Hnd.
  - apply NoDup_cons in Hnd. destruct Hnd as [Hnotin _].
    rewrite List.Forall_forall in Ha. rewrite List.Forall_forall.
    intros b Hb. apply ltb_of_leb.
    + apply Is_true_true. exact (Ha b Hb).
    + intros ->. apply Hnotin. now apply list_elem_of_In.
Qed.

Lemma merge_sort_same (l l' : list string) :
  NoDup l -> NoDup l' -> (forall x, x ∈ l <-> x ∈ l') ->
  merge_sort String.le l = merge_sort String.le l'.
Proof.
  intros Hl Hl' H. apply (Sorted_unique String.le).
  - apply Sorted_merge_sort; apply _.
  - apply Sorted_merge_sort; apply _.
  - rewrite !merge_sort_Permutation. now apply NoDup_Permutation.
Qed.

Lemma months_In (entries : list Entry.t) (k : string) :
  In k (months entries) <-> exists e, In e entries /\ slice7 (Entry.date e) = k.
Proof.
  unfold months. rewrite <- list_elem_of_In, merge_sort_Permutation, setValues_In.
  rewrite list_elem_of_In, in_map_iff. split; intros (e & H1 & H2); exists e; tauto.
Qed.

Lemma chartMap_keys (entries : list Entry.t) (wage : number) (k : string) :
  is_Some (chartMap entries wage !! k)
  <-> exists e, In e entries /\ slice7 (Entry.date e) = k.
Proof.
  induction entries as [| e l IH] using rev_ind.
  - unfold chartMap. simpl. rewrite lookup_empty. split.
    + intros [v H]. discriminate.
    + intros (e & [] & _).
  - unfold chartMap in *. rewrite fold_left_app. simpl. unfold chartStep at 1.
    destruct (String.eqb_spec (slice7 (Entry.date e)) k) as [E | E].
    + rewrite E, lookup_insert_eq. split; [| intros _; eexists; reflexivity].
      intros _. exists e. split; [apply in_or_app; right; now left | exact E].
    + rewrite lookup_insert_ne by exact E. rewrite IH. split.
      * intros (e' & H1 & H2). exists e'. split; [apply in_or_app; now left | exact H2].
      * intros (e' & H1 & H2). apply in_app_or in H1. destruct H1 as [H1 | [<- | []]].
        -- now exists e'.
        -- contradiction.
Qed.

Lemma months_sortedKeys (entries : list Entry.t) (wage : number) :
  months entries = sortedKeys (chartMap entries wage).
Proof.
  unfold months, sortedKeys. apply merge_sort_same.
  - apply setValues_NoDup.
  - apply NoDup_fst_map_to_list.
  - intros k. rewrite setValues_In.
    pose proof (sortedKeys_In (chartMap entries wage) k) as Hk.
    unfold sortedKeys in Hk.
    rewrite <- list_elem_of_In, merge_sort_Permutation in Hk. rewrite Hk, chartMap_keys.
    rewrite list_elem_of_In, in_map_iff.
    split; intros (e & H1 & H2); exists e; tauto.
Qed.

(** X16. The months offered by the month selector are the months of the chart,
    in the same order, whatever the hours and the wage are: each month in
    which an entry falls, once, in ascending order. *)
Theorem months_of_chart (entries : list Entry.t) (wage : number) :
  months entries = List.map month (chartData entries wage)
  /\ StronglySorted monthBefore (months entries)
  /\ (forall k, In k (months entries)
                <-> exists e, In e entries /\ slice7 (Entry.date e) = k).
Proof.
  split; [| split].
  - unfold chartData. rewrite List.map_map. simpl. rewrite List.map_id.
    apply months_sortedKeys.
  - apply merge_sort_ascending, setValues_NoDup.
  - apply months_In.
Qed.

Lemma months_leb_sorted (entries : list Entry.t) :
  StronglySorted (fun a b => String.leb a b = true) (months entries).
Proof.
  pose proof (StronglySorted_merge_sort String.le
                (setValues (List.map (fun e => slice7 (Entry.date e)) entries))) as H.
  eapply StronglySorted_weaken; [| exact H].
  intros a b Hab. now apply Is_true_true.
Qed.

(** X17. The month selected when the component starts: without entries, the
    month of the current time; otherwise the month of an entry, and no
    entry is of a later month. *)
Theorem initialSelectedMonth_latest (entries : list Entry.t) (now : string) :
  (entries = [] -> initialSelectedMonth entries now = slice7 now)
  /\ (entries <> [] ->
      (exists e, In e entries
                 /\ slice7 (Entry.date e) = initialSelectedMonth entries now)
      /\ (forall e, In e entries ->
                    String.leb (slice7 (Entry.date e)) (initialSelectedMonth entries now)
                    = true)).
Proof.
  split.
  - intros ->. reflexivity.
  - intros Hne. unfold initialSelectedMonth.
    pose proof (months_In entries) as Hin.
    pose proof (months_leb_sorted entries) as Hs.
    destruct (months entries) as [| m ms] eqn:Em.
    + destruct entries as [| e l]; [contradiction |].
      exfalso. apply (proj2 (Hin (slice7 (Entry.date e)))). exists e. split; [now left | reflexivity].
    + split.
      * apply Hin.
        destruct (exists_last (l := m :: ms)) as (l0 & z & E); [discriminate |].
        rewrite E, last_last. apply in_or_app. right. now left.
      * intros e He.
        apply (sorted_last (fun a b => String.leb a b = true) (m :: ms) m
                 (slice7 (Entry.date e)) leb_refl Hs).
        apply Hin. now exists e.
Qed.

Lemma initialSelectedMonth_latest_witness :
  initialSelectedMonth [] "2024-05-17T10:00:00.000Z" = "2024-05"
  /\ (exists e, In e twoWeeks
                /\ slice7 (Entry.date e)
                   = initialSelectedMonth twoWeeks "2024-05-17T10:00:00.000Z").
Proof.
  split.
  - apply (initialSelectedMonth_latest [] "2024-05-17T10:00:00.000Z"). reflexivity.
  - apply (initialSelectedMonth_latest twoWeeks "2024-05-17T10:00:00.000Z"). discriminate.
Defined.

Lemma monthlyEarnings_monthEarnings (entries : list Entry.t) (w : Qc) (k : string) :
  monthlyEarnings entries (Fin w) k = monthEarnings k entries w.
Proof.
  unfold monthlyEarnings, monthEarnings, sumNumbers. rewrite settingNumber_Fin.
  rewrite (fold_left_map_add (fun e => JS.mul (hoursNumber e) (Fin w))).
  unfold monthEntries, monthGroup, monthOf.
  rewrite (filter_ext (fun e => String.eqb (slice7 (Entry.date e)) k)
             (fun e => String.eqb (yearMonth (Entry.date e)) k)); [reflexivity |].
  intros e. now rewrite slice7_yearMonth.
Qed.

(** X18. With hours that are read as numbers, the bar of a month in the chart
    is what the month view shows as the earnings of that month, rounded to
    the cent, and the chart has one bar for each month of the selector. *)
Theorem chart_of_monthlyEarnings (entries : list Entry.t) (w : Qc) :
  Forall numericHours entries ->
  chartData entries (Fin w)
  = List.map
      (fun k => {| month := k;
                   earnings := roundToCents (monthlyEarnings entries (Fin w) k) |})
      (months entries).
Proof.
  intros H. unfold chartData. rewrite (months_sortedKeys entries (Fin w)).
  apply map_ext_in. intros k Hk. f_equal. unfold roundToCents. do 3 f_equal.
  rewrite monthlyEarnings_monthEarnings.
  apply sortedKeys_In in Hk. destruct Hk as [v Hv].
  unfold getKey. rewrite Hv. simpl.
  rewrite (chartMap_lookup entries w k H) in Hv.
  destruct (monthGroup k entries); [discriminate | congruence].
Qed.

Lemma chart_of_monthlyEarnings_witness :
  chartData threeEntries (Fin (Q2Qc (inject_Z 10)))
  = List.map
      (fun k => {| month := k;
                   earnings := roundToCents
                                 (monthlyEarnings threeEntries (Fin (Q2Qc (inject_Z 10))) k) |})
      (months threeEntries).
Proof.
  apply (chart_of_monthlyEarnings threeEntries (Q2Qc (inject_Z 10))).
  repeat constructor; discriminate.
Defined.

(* ===================================================================== *)
(** * Settings kept in the local storage *)
(* ===================================================================== *)

Lemma ToBoolean_nonzero (q : Qc) : q <> Q2Qc 0 -> ToBoolean (Num (Fin q)) = true.
Proof.
  intros H. simpl. destruct (Qc_eq_dec q (Q2Qc 0)); [contradiction | reflexivity].
Qed.

(** X22. A wage or savings percentage that is not zero and has a terminating
    decimal expansion is restored from the local storage as it was stored;
    a zero that was stored is not restored: the default takes its
    place. *)
Theorem loadSetting_restores (d : Z) (w : Qc) :
  decimalNumber (Fin w) ->
  (w <> Q2Qc 0 -> loadSetting d (Some (storedSetting (Fin w))) = Fin w)
  /\ (w = Q2Qc 0 -> loadSetting d (Some (storedSetting (Fin w))) = ofZ d).
Proof.
  intros Hdec.
  assert (E : ToNumber (getItem (Some (storedSetting (Fin w)))) = Fin w)
    by exact (number_text_round_trip (Fin w) Hdec).
  unfold loadSetting. rewrite E. unfold logicalOr. split.
  - intros H. now rewrite (ToBoolean_nonzero w H).
  - intros ->. reflexivity.
Qed.

Lemma loadSetting_restores_witness :
  loadSetting 15 (Some (storedSetting (Fin (Q2Qc (25 # 2))))) = Fin (Q2Qc (25 # 2))
  /\ loadSetting 15 (Some (storedSetting (Fin (Q2Qc 0)))) = ofZ 15.
Proof.
  split.
  - apply (loadSetting_restores 15 (Q2Qc (25 # 2))); [reflexivity | discriminate].
  - apply (loadSetting_restores 15 (Q2Qc 0)); reflexivity.
Defined.

(** X23. A setting starts as the default when nothing is stored, and when
    [Number] reads the stored text as [NaN] or as zero; it starts as the
    number read when that is another number. With a default that is not
    zero it therefore never starts as zero or as [NaN]. *)
Theorem loadSetting_default (d : Z) (stored : option string) :
  loadSetting d None = ofZ d
  /\ (ToNumber (getItem stored) = NaN \/ ToNumber (getItem stored) = ofZ 0 ->
      loadSetting d stored = ofZ d)
  /\ (forall q, q <> Q2Qc 0 -> ToNumber (getItem stored) = Fin q ->
                loadSetting d stored = Fin q)
  /\ (d <> 0 -> loadSetting d stored <> NaN /\ loadSetting d stored <> ofZ 0).
Proof.
  split; [reflexivity |]. split; [| split].
  - unfold loadSetting. intros [-> | ->]; reflexivity.
  - intros q Hq E. unfold loadSetting, logicalOr. rewrite E.
    now rewrite (ToBoolean_nonzero q Hq).
  - intros Hd. unfold loadSetting, logicalOr.
    destruct (ToNumber (getItem stored)) as [| q].
    + split; [discriminate |]. intros H. apply ofZ_inj in H. contradiction.
    + simpl ToBoolean. unfold isZeroOrNaN.
      destruct (Qc_eq_dec q (Q2Qc 0)) as [E | E]; simpl.
      * split; [discriminate |]. intros H. apply ofZ_inj in H. contradiction.
      * split; [discriminate |]. intros H. apply E. exact (f_equal valueOf H).
Qed.

Lemma loadSetting_default_witness :
  loadSetting 20 (Some "abc") = ofZ 20
  /\ loadSetting 20 (Some "17.5") = Fin (Q2Qc (35 # 2))
  /\ loadSetting 20 (Some "0") <> NaN /\ loadSetting 20 (Some "0") <> ofZ 0.
Proof.
  split; [| split].
  - apply (proj1 (proj2 (loadSetting_default 20 (Some "abc")))). left. reflexivity.
  - apply (proj1 (proj2 (proj2 (loadSetting_default 20 (Some "17.5"))))); [discriminate |].
    apply (f_equal Fin), Qc_is_canon. reflexivity.
  - apply (proj2 (proj2 (proj2 (loadSetting_default 20 (Some "0"))))). discriminate.
Defined.

(* ===================================================================== *)
(** * The wishlist of the UK version *)
(* ===================================================================== *)

Lemma Qc_le_0_plus (a b : Qc) : (0 <= a)%Qc -> (0 <= b)%Qc -> (0 <= a + b)%Qc.
Proof.
  intros Ha Hb. replace (Q2Qc 0) with (0 + 0)%Qc by ring.
  now apply Qcplus_le_compat.
Qed.

Lemma fold_add_finite (l : list number) (a : Qc) :
  Forall (fun x => x <> NaN) l ->
  fold_left JS.add l (Fin a) = Fin (a + qsum (List.map valueOf l))%Qc.
Proof.
  intros H. revert a. induction H as [| x l Hx Hl IH]; intros a; simpl.
  - f_equal. ring.
  - destruct x as [| q]; [congruence |]. simpl. rewrite IH. f_equal. ring.
Qed.

Lemma qsum_member_le (l : list Qc) (x : Qc) :
  Forall (fun y => (0 <= y)%Qc) l -> In x l -> (x <= qsum l)%Qc.
Proof.
  induction 1 as [| y l Hy Hl IH]; intros Hin; [destruct Hin |].
  assert (Hs : (0 <= qsum l)%Qc).
  { clear IH Hin. induction Hl as [| z l Hz Hl IH]; simpl; [apply Qcle_refl |].
    now apply Qc_le_0_plus. }
  simpl. destruct Hin as [-> | Hin].
  - replace x with (x + 0)%Qc at 1 by ring. apply Qcplus_le_compat; [apply Qcle_refl | exact Hs].
  - replace x with (0 + x)%Qc by ring. apply Qcplus_le_compat; [exact Hy | now apply IH].
Qed.

(** X24. When [canAffordAll] holds for a wishlist whose prices are numbers and
    not negative, every item is among the affordable ones. *)
Theorem canAffordAll_affordable (wishlist : list Item.t) (s : number) :
  Forall nonNegativePrice wishlist ->
  canAffordAll wishlist s = true ->
  affordableItems wishlist s = wishlist.
Proof.
  intros Hp Hall. unfold canAffordAll in Hall.
  rewrite (fold_left_map_add Item.price) in Hall. unfold ofZ in Hall.
  rewrite fold_add_finite in Hall.
  2: { rewrite List.Forall_forall in *. intros x Hx. apply in_map_iff in Hx.
       destruct Hx as (i & <- & Hi). destruct (Hp i Hi) as (q & -> & _). discriminate. }
  destruct s as [| sq]; [discriminate |]. apply le_Fin in Hall.
  unfold affordableItems. apply filter_all. intros i Hi.
  rewrite List.Forall_forall in Hp. destruct (Hp i Hi) as (q & Hq & Hq0).
  rewrite Hq. apply le_Fin. eapply Qcle_trans; [| exact Hall].
  change (Q2Qc (inject_Z 0)) with (Q2Qc 0).
  replace (0 + qsum (List.map valueOf (List.map Item.price wishlist)))%Qc
    with (qsum (List.map valueOf (List.map Item.price wishlist))) by ring.
  apply qsum_member_le.
  - rewrite List.Forall_forall. intros y Hy. rewrite List.map_map in Hy.
    apply in_map_iff in Hy. destruct Hy as (j & <- & Hj).
    destruct (Hp j Hj) as (qj & -> & Hqj). exact Hqj.
  - rewrite List.map_map. apply in_map_iff. exists i. split; [now rewrite Hq | exact Hi].
Qed.

Lemma canAffordAll_affordable_witness : affordableItems sampleWishlist (ofZ 150) = sampleWishlist.
Proof.
  apply (canAffordAll_affordable sampleWishlist (ofZ 150)).
  - repeat (constructor; [eexists; split; [reflexivity | discriminate] |]). constructor.
  - reflexivity.
Defined.

Lemma leb_empty (s : string) : String.leb EmptyString s = true.
Proof. destruct s; reflexivity. Qed.

Lemma weeklyAverage_empty_date (entries : list Entry.t) (t : number) :
  (exists e, In e entries /\ Entry.date e = EmptyString) ->
  weeklyAverage entries t = NaN.
Proof.
  intros (e & He & Hd). unfold weeklyAverage.
  destruct entries as [| e0 l]; [destruct He |].
  cbv zeta.
  rewrite (sorted_head_earliest (e0 :: l) e0 EmptyString).
  - change (newDate EmptyString) with NaN.
    destruct (newDate (Entry.date (List.last (sortWith byDate (e0 :: l)) e0)));
      destruct t; reflexivity.
  - split.
    + apply in_map_iff. now exists e.
    + rewrite List.Forall_forall. intros x _. apply leb_empty.
Qed.

(** X25. The UK version stores an entry whose date field is empty; from then on
    the weekly average is [NaN], and every wishlist item is labelled [now],
    whatever its price and the spendable amount. *)
Theorem UK_empty_date_average (uid : string) (st : State)
    (wishlist : list Item.t) (sp t : number) :
  date st = EmptyString ->
  weeklyAverage (entries (snd (TrackerUK.addEntry uid st))) t = NaN
  /\ Forall (fun w => timeLabel w = "now")
            (wishlistWithTime wishlist sp
               (weeklyAverage (entries (snd (TrackerUK.addEntry uid st))) t)).
Proof.
  intros Hd.
  assert (Hw : weeklyAverage (entries (snd (TrackerUK.addEntry uid st))) t = NaN).
  { apply weeklyAverage_empty_date.
    exists (Entry.make uid (date st) (Num (ToNumber (hours st))) (Some (note st))).
    split; [| exact Hd]. simpl.
    eapply Permutation_in; [apply sortWith_byDate_Permutation |].
    apply in_or_app. right. now left. }
  split; [exact Hw |]. rewrite Hw.
  rewrite List.Forall_forall. intros w Hin.
  unfold wishlistWithTime in Hin. apply in_map_iff in Hin. destruct Hin as (i & <- & _).
  unfold timeLabel, weeksNeededOf. cbn [TimedItem.weeksNeeded].
  replace (JS.gt NaN (ofZ 0)) with false by reflexivity.
  rewrite andb_false_r. reflexivity.
Qed.

Lemma UK_empty_date_average_witness :
  weeklyAverage
    (entries (snd (TrackerUK.addEntry "u1" (setDate EmptyString twoEntries)))) (ofZ 150)
  = NaN
  /\ Forall (fun w => timeLabel w = "now")
            (wishlistWithTime [Item.make "w1" "bike" (ofZ 500)] (ofZ 120)
               (weeklyAverage
                  (entries (snd (TrackerUK.addEntry "u1" (setDate EmptyString twoEntries))))
                  (ofZ 150))).
Proof.
  apply (UK_empty_date_average "u1" (setDate EmptyString twoEntries)). reflexivity.
Defined.

(* ===================================================================== *)
(** * Bounds of the weekly average *)
(* ===================================================================== *)

Lemma hd_In {A : Type} (d : A) (l : list A) : l <> [] -> In (hd d l) l.
Proof. destruct l; [congruence | intros _; now left]. Qed.

Lemma last_In {A : Type} (d : A) (l : list A) : l <> [] -> In (List.last l d) l.
Proof.
  intros H. destruct (exists_last H) as (l0 & z & ->).
  rewrite last_last. apply in_or_app. right. now left.
Qed.

Lemma ofZ_one_le (m : Z) : (1 <= m)%Z -> (1 <= Q2Qc (inject_Z m))%Qc.
Proof.
  intros H. change (1%Qc) with (Q2Qc (inject_Z 1)).
  unfold Qcle. rewrite !Q2Qc_this_Z. rewrite <- Zle_Qle. exact H.
Qed.

Lemma div_by_weeks (t : Qc) (m : Z) :
  (1 <= m)%Z -> (0 <= t)%Qc ->
  exists a, JS.div (Fin t) (ofZ m) = Fin a /\ (0 <= a)%Qc /\ (a <= t)%Qc.
Proof.
  intros Hm Ht. pose proof (ofZ_one_le m Hm) as H1.
  assert (Hpos : (0 < Q2Qc (inject_Z m))%Qc).
  { eapply Qclt_le_trans; [| exact H1]. reflexivity. }
  assert (Hnz : Q2Qc (inject_Z m) <> Q2Qc 0) by now apply Qc_pos_nonzero.
  exists (t / Q2Qc (inject_Z m))%Qc. unfold ofZ. rewrite (div_Fin _ _ Hnz).
  split; [reflexivity |].
  assert (Ha : (0 <= t / Q2Qc (inject_Z m))%Qc).
  { destruct (Qcle_lt_or_eq _ _ Ht) as [Hlt | <-].
    - apply Qclt_le_weak. now apply Qc_div_pos.
    - unfold Qcdiv. rewrite Qcmult_0_l. apply Qcle_refl. }
  split; [exact Ha |].
  replace t with (t / Q2Qc (inject_Z m) * Q2Qc (inject_Z m))%Qc at 2
    by (field; exact Hnz).
  replace (t / Q2Qc (inject_Z m))%Qc with (1 * (t / Q2Qc (inject_Z m)))%Qc at 1 by ring.
  rewrite (Qcmult_comm (t / Q2Qc (inject_Z m)) (Q2Qc (inject_Z m))).
  now apply Qcmult_le_compat_r.
Qed.

(** X26. With entries whose dates are calendar dates and total earnings that
    are not negative, the weekly average is a number between zero and the
    total earnings: the earnings are divided by a number of weeks that is at
    least one. *)
Theorem weeklyAverage_bounded (entries : list Entry.t) (t : Qc) :
  Forall readableDate entries ->
  (0 <= t)%Qc ->
  exists a, weeklyAverage entries (Fin t) = Fin a /\ (0 <= a)%Qc /\ (a <= t)%Qc.
Proof.
  intros Hd Ht. destruct entries as [| e0 l].
  - exists (Q2Qc 0). split; [reflexivity |]. split; [apply Qcle_refl | exact Ht].
  - unfold weeklyAverage. cbv zeta.
    assert (Hne : sortWith byDate (e0 :: l) <> []).
    { intros E. pose proof (sortWith_byDate_Permutation (e0 :: l)) as Hp.
      rewrite E in Hp. apply Permutation_sym, Permutation_nil in Hp. discriminate. }
    rewrite List.Forall_forall in Hd.
    assert (Hin : forall e, In e (sortWith byDate (e0 :: l)) -> readableDate e).
    { intros e He. apply Hd.
      eapply Permutation_in; [symmetry; apply sortWith_byDate_Permutation | exact He]. }
    pose proof (Hin _ (hd_In e0 _ Hne)) as Hfirst.
    pose proof (Hin _ (last_In e0 _ Hne)) as Hlast.
    unfold readableDate in Hfirst, Hlast. unfold newDate.
    destruct (parseDay (Entry.date (hd e0 (sortWith byDate (e0 :: l))))) as [d0 |];
      [| congruence].
    destruct (parseDay (Entry.date (List.last (sortWith byDate (e0 :: l)) e0))) as [d1 |];
      [| congruence].
    rewrite ofZ_sub, <- Z.mul_sub_distr_r, weeks_of_days, ofZ_max_one.
    apply div_by_weeks; [lia | exact Ht].
Qed.

Lemma weeklyAverage_bounded_witness :
  exists a, weeklyAverage threeEntries (Fin (Q2Qc (inject_Z 60))) = Fin a
            /\ (0 <= a)%Qc /\ (a <= Q2Qc (inject_Z 60))%Qc.
Proof.
  apply (weeklyAverage_bounded threeEntries (Q2Qc (inject_Z 60))).
  - repeat constructor; discriminate.
  - discriminate.
Defined.
